(** * Deduplication of the archives of the flickr-grab pipeline

    A shallow embedding of [Deduplicate.process] (pipeline.py) and the
    properties of the archive rewriting it performs.

    [process] reads a WARC archive record by record, keeps an index of the
    payload digests of the response records it has seen, rewrites a response
    whose digest is already indexed into a revisit record, writes every
    record to a new archive and finally writes a log of the rewrites.

    Python strings are byte strings here (the pipeline is Python 2 code), so
    [len] is [String.length].  The header of a record is a dictionary from
    field names to values, the index [hashes] a dictionary from digests to
    triples; both are finite maps.  The dictionary of a header takes field
    names up to case; the model spells every field as the source does.  The
    archive files are the lists of the records they hold; compression and
    serialisation belong to the [warc] package and are not part of the
    model, but for the exception that writing a field without a value
    raises. *)

From Stdlib Require Import Strings.String Strings.Ascii Numbers.DecimalString
  Numbers.DecimalNat.
From stdpp Require Import base option list gmap strings.

Local Open Scope string_scope.
Local Open Scope list_scope.
Local Open Scope stdpp_scope.

(** ** Python values and exceptions *)

(** What a header field of a record can hold: a byte string, or the
    integer that the record constructor stores when it fills in a length.
    A Python object met here is such a value or [None] (what [dict.get]
    hands back for a field that is not there): an [option value]. *)
Inductive value : Type :=
| VStr (s : string)
| VInt (n : nat).

#[global] Instance value_eq_dec : EqDecision value.
Proof. solve_decision. Defined.

(** The exceptions [process] can raise on the records it is given. *)
Inductive exn : Type :=
| KeyError (key : string)
| IndexError
| AttributeError
| TypeError.

#[global] Instance exn_eq_dec : EqDecision exn.
Proof. solve_decision. Defined.

Inductive result (A : Type) : Type :=
| Ok (a : A)
| Raise (e : exn).
Arguments Ok {A} a.
Arguments Raise {A} e.

(** Statements in sequence: the first exception raised ends the run. *)
#[global] Instance result_bind : MBind result := fun A B k m =>
  match m with
  | Ok a => k a
  | Raise e => Raise e
  end.

(** ** String operations of the Python runtime *)

Definition CR : ascii := "013"%char.
Definition LF : ascii := "010"%char.
Definition CRLF : string := String CR (String LF EmptyString).

(** [str(n)] for a length. *)
Definition str (n : nat) : string := NilEmpty.string_of_uint (Nat.to_uint n).

(** [str.format] substitutes [str(v)] for a field. *)
Definition format_value (v : option value) : string :=
  match v with
  | Some (VStr s) => s
  | Some (VInt n) => str n
  | None => "None"
  end.

(** [sep.join(l)]. *)
Fixpoint join (sep : string) (l : list string) : string :=
  match l with
  | [] => ""
  | [x] => x
  | x :: l' => x +:+ sep +:+ join sep l'
  end.

(** [needle in hay] on strings. *)
Fixpoint contains (needle hay : string) : bool :=
  String.prefix needle hay ||
  match hay with
  | EmptyString => false
  | String _ hay' => contains needle hay'
  end.

(** [s.splitlines()] of a byte string: lines end at LF, CR or CR LF, the
    line ends are not kept, and no empty line is produced after the last
    line end.  [cur] is the line read so far. *)
Fixpoint splitlines_from (cur s : string) : list string :=
  match s with
  | EmptyString => if decide (cur = "") then [] else [cur]
  | String c s' =>
      if Ascii.eqb c LF then cur :: splitlines_from "" s'
      else if Ascii.eqb c CR then
        match s' with
        | String c' s'' =>
            if Ascii.eqb c' LF then cur :: splitlines_from "" s''
            else cur :: splitlines_from "" s'
        | EmptyString => cur :: splitlines_from "" s'
        end
      else splitlines_from (cur +:+ String c EmptyString) s'
  end.

Definition splitlines (s : string) : list string := splitlines_from "" s.

(** The characters [str.strip] removes: space, TAB, LF, VT, FF and CR. *)
Definition isspace (c : ascii) : bool :=
  match nat_of_ascii c with
  | 9 | 10 | 11 | 12 | 13 | 32 => true
  | _ => false
  end.

Fixpoint lstrip (s : string) : string :=
  match s with
  | EmptyString => EmptyString
  | String c s' => if isspace c then lstrip s' else s
  end.

Fixpoint rstrip (s : string) : string :=
  match s with
  | EmptyString => EmptyString
  | String c s' =>
      match rstrip s' with
      | EmptyString => if isspace c then EmptyString else String c EmptyString
      | t => String c t
      end
  end.

Definition strip (s : string) : string := lstrip (rstrip s).

(** [s.split(sep, 1)] for a separator of one character: the whole string
    when [sep] does not occur, else what is before and what is after its
    first occurrence. *)
Fixpoint split1_from (sep : ascii) (cur s : string) : list string :=
  match s with
  | EmptyString => [cur]
  | String c s' =>
      if Ascii.eqb c sep then [cur; s']
      else split1_from sep (cur +:+ String c EmptyString) s'
  end.

Definition split1 (sep : ascii) (s : string) : list string :=
  split1_from sep "" s.

(** [l[i]]. *)
Definition getindex (l : list string) (i : nat) : result string :=
  match l !! i with
  | Some x => Ok x
  | None => Raise IndexError
  end.

(** ** Records of the archive

    A [record] is a record as an archive file holds it, with a header and a
    payload; [record.type] is the header's WARC-Type field.  No field of a
    record of a file is [None]: the reader of the [warc] package hands out
    the strings it has parsed, and the writer raises on a [None] (see
    [write_to]). *)

Record record : Type := mkRecord {
  header : gmap string value;
  payload : string
}.

#[global] Instance record_eq_dec : EqDecision record.
Proof. solve_decision. Defined.

Definition record_type (r : record) : option value := header r !! "WARC-Type".

(** The header dictionary of a record in memory, [record.header]: unlike
    the header of a record of a file it takes any object as the value of a
    field, [None] too. *)
Abbreviation WARCHeader := (gmap string (option value)).

(** [record.header] of a record as the reader hands it out. *)
Definition read_header (r : record) : WARCHeader := Some <$> header r.

(** [h.get(k)]. *)
Definition get (h : WARCHeader) (k : string) : option value :=
  default None (h !! k).

(** [h[k]]. *)
Definition getitem (h : WARCHeader) (k : string) : result (option value) :=
  match h !! k with
  | Some v => Ok v
  | None => Raise (KeyError k)
  end.

(** [del h[k]]. *)
Definition delitem (h : WARCHeader) (k : string) : result WARCHeader :=
  match h !! k with
  | Some _ => Ok (delete k h)
  | None => Raise (KeyError k)
  end.

(** [v.split(':', 1)[1]] for the value [v] of a header field: only strings
    have [split]. *)
Definition digest_key (v : option value) : result string :=
  match v with
  | Some (VStr s) => getindex (split1 ":"%char s) 1
  | Some (VInt _) | None => Raise AttributeError
  end.

(** ** The state of a run *)

(** The first occurrence of a digest: record id, date and target URI, each
    of them [None] when the record did not have the field. *)
Abbreviation entry := (option value * option value * option value)%type.

(** What [process] holds while it runs: the index [hashes], the lines of
    [dedup_log] and the records written to [warc_output] so far. *)
Record state : Type := mkState {
  hashes : gmap string entry;
  dedup_log : list string;
  warc_output : list record
}.

#[global] Instance state_eq_dec : EqDecision state.
Proof. solve_decision. Defined.

#[global] Instance result_eq_dec `{EqDecision A} : EqDecision (result A).
Proof. solve_decision. Defined.

(** [record.write_to(f)], through which [write_record] sends a record to
    the file: it writes the fields one by one with [f.write(value)], which
    raises TypeError when the value is [None].  What reaches the file is the
    record with the values of its fields. *)
Definition write_to (rec : WARCHeader * string) : result record :=
  if decide (map_Forall (fun _ v => is_Some v) rec.1)
  then Ok (mkRecord (omap id rec.1) rec.2)
  else Raise TypeError.

(** [warc_output.write_record(rec)]: the record is added to the output
    archive, unless writing it raises. *)
Definition write_record (st : state) (rec : WARCHeader * string)
  : result state :=
  r ← write_to rec;
  Ok (mkState (hashes st) (dedup_log st) (warc_output st ++ [r])).

(** The lines of an embedded header block: the loop over
    [payload_.splitlines()] stops at the first empty line and strips the
    lines before it.  Lines come without their line ends, so of
    ['\r\n'], ['\n'] and [''] only the last can be met. *)
Fixpoint leading_headers (lines : list string) : list string :=
  match lines with
  | [] => []
  | line :: lines' =>
      if decide (line = CRLF \/ line = String LF "" \/ line = "") then []
      else strip line :: leading_headers lines'
  end.

(** The header block as it is rebuilt from the payload of a duplicate. *)
Definition rebuilt_payload (payload_ : string) : string :=
  join CRLF (leading_headers (splitlines payload_)) +:+ CRLF +:+ CRLF.

(** The test of the source for an empty inner body. *)
Definition declares_empty_body (payload : string) : bool :=
  contains "Content-Length: 0" payload || contains "content-length: 0" payload.

Definition revisit_profile : string :=
  "http://netpreserve.org/warc/1.0/revisit/identical-payload-digest".

(** The line appended to [dedup_log] for a rewritten duplicate. *)
Definition log_line (dID dURL dDate oID oURL oDate : option value)
  : string :=
  "WARC-Record-ID:" +:+ format_value dID +:+
  "; WARC-Target-URI:" +:+ format_value dURL +:+
  "; WARC-Date:" +:+ format_value dDate +:+
  " duplicate of WARC-Record-ID:" +:+ format_value oID +:+
  "; WARC-Target-URI:" +:+ format_value oURL +:+
  "; WARC-Date:" +:+ format_value oDate +:+ CRLF.

(** What a run leaves behind: the records of the output
    archive, the text of deduplicate.log when the run got as far as writing
    it, and the exception that ended the run, if any. *)
Record outcome : Type := mkOutcome {
  out_archive : list record;
  out_log : option string;
  out_raised : option exn
}.

#[global] Instance outcome_eq_dec : EqDecision outcome.
Proof. solve_decision. Defined.

(** [record.header.get('WARC-Payload-Digest').split(':', 1)[1]]. *)
Definition record_key (r : record) : result string :=
  digest_key (get (read_header r) "WARC-Payload-Digest").

(** The triple stored in [hashes] for the first record with a digest. *)
Definition entry_of (r : record) : entry :=
  (get (read_header r) "WARC-Record-ID",
   get (read_header r) "WARC-Date",
   get (read_header r) "WARC-Target-URI").

(** The header of a duplicate after the assignments of the revisit branch,
    before WARC-Block-Digest is deleted.  The three fields taken from the
    index hold what the index holds, be it [None]. *)
Definition revisit_header (h : WARCHeader) (payload : string) (e : entry)
  : WARCHeader :=
  <["WARC-Profile" := Some (VStr revisit_profile)]>
  (<["WARC-Truncated" := Some (VStr "length")]>
  (<["WARC-Type" := Some (VStr "revisit")]>
  (<["WARC-Refers-To-Target-URI" := e.2]>
  (<["WARC-Refers-To-Date" := e.1.2]>
  (<["WARC-Refers-To" := e.1.1]>
  (<["Content-Length" := Some (VStr (str (String.length payload)))]> h)))))).

(** The header of the revisit record that reaches the file for a duplicate
    with header [h], whose first occurrence has record id [oID], date
    [oDate] and target URI [oURL]. *)
Definition revisit_written (h : gmap string value) (payload : string)
    (oID oDate oURL : value) : gmap string value :=
  delete "WARC-Block-Digest"
  (<["WARC-Profile" := VStr revisit_profile]>
  (<["WARC-Truncated" := VStr "length"]>
  (<["WARC-Type" := VStr "revisit"]>
  (<["WARC-Refers-To-Target-URI" := oURL]>
  (<["WARC-Refers-To-Date" := oDate]>
  (<["WARC-Refers-To" := oID]>
  (<["Content-Length" := VStr (str (String.length payload))]> h))))))).

(** ** Consistency of a record's declared length *)

(** A Content-Length field, when the header has one, is the length of the
    payload in bytes. *)
Definition content_length_ok (r : record) : bool :=
  match header r !! "Content-Length" with
  | None => true
  | Some (VStr s) => bool_decide (s = str (String.length (payload r)))
  | Some (VInt n) => bool_decide (n = String.length (payload r))
  end.

(** ** What one turn of the loop does, as a relation *)

(** A turn that ends without an exception, and the state it leaves. *)
Inductive step (st : state) (r : record) : state -> Prop :=
| step_other :
    record_type r ≠ Some (VStr "response") ->
    step st r (mkState (hashes st) (dedup_log st) (warc_output st ++ [r]))
| step_first k :
    record_type r = Some (VStr "response") ->
    record_key r = Ok k ->
    hashes st !! k = None ->
    step st r
      (mkState (<[k := entry_of r]> (hashes st)) (dedup_log st)
         (warc_output st ++ [r]))
| step_empty_body k e :
    record_type r = Some (VStr "response") ->
    record_key r = Ok k ->
    hashes st !! k = Some e ->
    declares_empty_body (rebuilt_payload (payload r)) = true ->
    step st r (mkState (hashes st) (dedup_log st) (warc_output st ++ [r]))
| step_revisit k oID oDate oURL bd dID dURL dDate :
    record_type r = Some (VStr "response") ->
    record_key r = Ok k ->
    hashes st !! k = Some (Some oID, Some oDate, Some oURL) ->
    declares_empty_body (rebuilt_payload (payload r)) = false ->
    header r !! "WARC-Block-Digest" = Some bd ->
    header r !! "WARC-Record-ID" = Some dID ->
    header r !! "WARC-Target-URI" = Some dURL ->
    header r !! "WARC-Date" = Some dDate ->
    step st r
      (mkState (hashes st)
         (dedup_log st ++
            [log_line (Some dID) (Some dURL) (Some dDate)
               (Some oID) (Some oURL) (Some oDate)])
         (warc_output st ++
            [mkRecord
               (revisit_written (header r) (rebuilt_payload (payload r))
                  oID oDate oURL)
               (rebuilt_payload (payload r))])).

(** The fields the revisit branch assigns. *)
Definition revisit_fields : list string :=
  ["Content-Length"; "WARC-Refers-To"; "WARC-Refers-To-Date";
   "WARC-Refers-To-Target-URI"; "WARC-Type"; "WARC-Truncated";
   "WARC-Profile"].

(** ** The log, read off the archives *)

(** An input record and the record written for it: a response that came
    out as a revisit record. *)
Definition rewritten (p : record * record) : bool :=
  bool_decide (record_type p.1 = Some (VStr "response")) &&
  bool_decide (record_type p.2 = Some (VStr "revisit")).

(** The line that tells of the duplicate [r], given the index: the record
    id, target URI and date of [r], then those the index holds for the
    digest of [r]. *)
Definition audit_entry (idx : gmap string entry) (r : record)
  : option string :=
  match record_key r with
  | Ok k =>
      match idx !! k with
      | Some e =>
          Some (log_line (get (read_header r) "WARC-Record-ID")
                  (get (read_header r) "WARC-Target-URI")
                  (get (read_header r) "WARC-Date") e.1.1 e.2 e.1.2)
      | None => None
      end
  | Raise _ => None
  end.

(** A line of the log without the line end that closes it. *)
Definition log_text (dID dURL dDate oID oURL oDate : option value)
  : string :=
  "WARC-Record-ID:" +:+ format_value dID +:+
  "; WARC-Target-URI:" +:+ format_value dURL +:+
  "; WARC-Date:" +:+ format_value dDate +:+
  " duplicate of WARC-Record-ID:" +:+ format_value oID +:+
  "; WARC-Target-URI:" +:+ format_value oURL +:+
  "; WARC-Date:" +:+ format_value oDate.

Definition is_log_text (t : string) : Prop :=
  exists dID dURL dDate oID oURL oDate,
    t = log_text dID dURL dDate oID oURL oDate.

(** ** Reading a whole archive *)

(** The key under which a record meets the index: that of a response whose
    digest has one. *)
Definition response_key (r : record) : option string :=
  if decide (record_type r = Some (VStr "response")) then
    match record_key r with
    | Ok k => Some k
    | Raise _ => None
    end
  else None.

Definition digest_keys (rs : list record) : list string :=
  omap response_key rs.

(** A response whose WARC-Payload-Digest is a string with a colon. *)
Definition well_keyed (r : record) : Prop :=
  record_type r = Some (VStr "response") -> exists k, record_key r = Ok k.

(** The fields the revisit branch deletes and reads, in the order of the
    source, and the first of a list of fields that a header lacks. *)
Definition revisit_reads : list string :=
  ["WARC-Block-Digest"; "WARC-Record-ID"; "WARC-Target-URI"; "WARC-Date"].

Fixpoint first_missing (h : gmap string value) (ks : list string)
  : option string :=
  match ks with
  | [] => None
  | k :: ks' => if decide (h !! k = None) then Some k else first_missing h ks'
  end.

(** A turn that ends in an exception: the exception and the state it
    leaves.  The digest has no key; or the record is a duplicate to rewrite
    that lacks a field the rewrite deletes or reads; or it is a duplicate to
    rewrite whose first occurrence lacked its record id, date or target URI,
    so that the header holds a [None] when the record is written, after its
    line has gone to the log. *)
Inductive raises (st : state) (r : record) : exn -> state -> Prop :=
| raises_key x :
    record_type r = Some (VStr "response") ->
    record_key r = Raise x ->
    raises st r x st
| raises_missing k e f :
    record_type r = Some (VStr "response") ->
    record_key r = Ok k ->
    hashes st !! k = Some e ->
    declares_empty_body (rebuilt_payload (payload r)) = false ->
    first_missing (header r) revisit_reads = Some f ->
    raises st r (KeyError f) st
| raises_write k e :
    record_type r = Some (VStr "response") ->
    record_key r = Ok k ->
    hashes st !! k = Some e ->
    declares_empty_body (rebuilt_payload (payload r)) = false ->
    first_missing (header r) revisit_reads = None ->
    e.1.1 = None \/ e.1.2 = None \/ e.2 = None ->
    raises st r TypeError
      (mkState (hashes st)
         (dedup_log st ++
            [log_line (header r !! "WARC-Record-ID")
               (header r !! "WARC-Target-URI") (header r !! "WARC-Date")
               e.1.1 e.2 e.1.2])
         (warc_output st)).

(** A line of an HTTP header block as a server sends it: not empty, without
    CR or LF inside, without white space at either end. *)
Fixpoint no_line_end (s : string) : bool :=
  match s with
  | EmptyString => true
  | String c s' => negb (Ascii.eqb c LF) && negb (Ascii.eqb c CR) && no_line_end s'
  end.

Definition header_line (l : string) : Prop :=
  l <> "" /\ strip l = l /\ no_line_end l = true.

(** ** Before the download: CheckIP and WgetArgs

    Both talk to the network.  What the network answers is a parameter of
    the model: the resolver for [CheckIP], and for [WgetArgs.realize] a
    [world] that holds the answer to the n-th request, the n-th random
    number, the match of the regular expression on a page, and the globals
    [WGET_LUA] and [bind_address]. *)

Inductive raised : Type :=
| Builtin (e : exn)
| ValueError
| AssertionError
| Exception (msg : string)
| gaierror (host : string).

#[global] Instance raised_eq_dec : EqDecision raised.
Proof. solve_decision. Defined.

Inductive try (A : Type) : Type :=
| Returned (a : A)
| Raised (e : raised).
Arguments Returned {A} a.
Arguments Raised {A} e.

#[global] Instance try_eq_dec `{EqDecision A} : EqDecision (try A).
Proof. solve_decision. Defined.

(** *** CheckIP *)

Definition checked_hosts : list string :=
  ["twitter.com"; "facebook.com"; "youtube.com"; "microsoft.com";
   "icanhas.cheezburger.com"; "archiveteam.org"].

Definition firewall_message : string :=
  "Are you behind a firewall/proxy? That is a big no-no!".

(** The six [ip_set.add(socket.gethostbyname(host))], in order; a lookup
    that fails raises. *)
Fixpoint resolve_all (gethostbyname : string -> option string)
    (hosts : list string) (ip_set : gset string) : try (gset string) :=
  match hosts with
  | [] => Returned ip_set
  | host :: hosts' =>
      match gethostbyname host with
      | Some ip => resolve_all gethostbyname hosts' ({[ ip ]} ∪ ip_set)
      | None => Raised (gaierror host)
      end
  end.

(** What a call of [CheckIP.process] leaves: the counter, the lines given
    to [item.log_output], and the exception raised, if any. *)
Record checked : Type := mkChecked {
  counter_after : Z;
  logged : list string;
  check_raised : option raised
}.

#[global] Instance checked_eq_dec : EqDecision checked.
Proof. solve_decision. Defined.

(** [CheckIP.process], from the value of [self._counter].  [format_set] is
    the text Python gives for a set. *)
Definition CheckIP_process (gethostbyname : string -> option string)
    (format_set : gset string -> string) (_counter : Z) : checked :=
  if decide (_counter <= 0)%Z then
    let log := ["Checking IP address."] in
    match resolve_all gethostbyname checked_hosts ∅ with
    | Raised e => mkChecked _counter log (Some e)
    | Returned ip_set =>
        if decide (size ip_set <> 6) then
          mkChecked _counter
            (log ++ ["Got IP addresses: " +:+ format_set ip_set;
                     firewall_message])
            (Some (Exception firewall_message))
        else mkChecked 10 log None
    end
  else mkChecked (_counter - 1) [] None.

(** [n] items in a row, until a call raises. *)
Fixpoint CheckIP_calls (gethostbyname : string -> option string)
    (format_set : gset string -> string) (n : nat) (_counter : Z) : checked :=
  match n with
  | 0 => mkChecked _counter [] None
  | S n' =>
      let c := CheckIP_process gethostbyname format_set _counter in
      match check_raised c with
      | Some _ => c
      | None =>
          let c' := CheckIP_calls gethostbyname format_set n' (counter_after c) in
          mkChecked (counter_after c') (logged c ++ logged c') (check_raised c')
      end
  end.

(** *** WgetArgs *)

Definition VERSION : string := "20170501.01".
Definition USER_AGENT : string := "ArchiveTeam".

Record response : Type := mkResponse {
  status_code : nat;
  text : string
}.

Record world : Type := mkWorld {
  requests_get : nat -> string -> response;
  randint : nat -> nat;
  og_url_user : string -> option string;
  bind_address : option string;
  WGET_LUA : string
}.

(** An argument of wget: a string, or an [ItemInterpolation], whose
    template is kept as its pieces, text and [%(key)s]. *)
Inductive piece : Type :=
| Text (s : string)
| Key (k : string).

Inductive wget_arg : Type :=
| Str (s : string)
| ItemInterpolation (template : list piece).

#[global] Instance piece_eq_dec : EqDecision piece.
Proof. solve_decision. Defined.

#[global] Instance wget_arg_eq_dec : EqDecision wget_arg.
Proof. solve_decision. Defined.

(** [template % item]. *)
Fixpoint interpolate (template : list piece) (item : gmap string string)
  : try string :=
  match template with
  | [] => Returned ""
  | Text t :: template' =>
      match interpolate template' item with
      | Returned rest => Returned (t +:+ rest)
      | Raised e => Raised e
      end
  | Key k :: template' =>
      match item !! k with
      | None => Raised (Builtin (KeyError k))
      | Some v =>
          match interpolate template' item with
          | Returned rest => Returned (v +:+ rest)
          | Raised e => Raised e
          end
      end
  end.

(** [realize(wget_args, item)] of seesaw: every interpolation is filled in
    from the item, in order. *)
Fixpoint realize_args (args : list wget_arg) (item : gmap string string)
  : try (list string) :=
  match args with
  | [] => Returned []
  | a :: args' =>
      match
        match a with
        | Str s => Returned s
        | ItemInterpolation t => interpolate t item
        end
      with
      | Raised e => Raised e
      | Returned s =>
          match realize_args args' item with
          | Returned rest => Returned (s :: rest)
          | Raised e => Raised e
          end
      end
  end.

(** [s.split(sep)] for a separator of one character. *)
Fixpoint split_from (sep : ascii) (cur s : string) : list string :=
  match s with
  | EmptyString => [cur]
  | String c s' =>
      if Ascii.eqb c sep then cur :: split_from sep "" s'
      else split_from sep (cur +:+ String c EmptyString) s'
  end.

Definition split (sep : ascii) (s : string) : list string :=
  split_from sep "" s.

(** The list [wget_args] starts with. *)
Definition base_args (w : world) : list wget_arg :=
  [Str (WGET_LUA w);
   Str "-U"; Str USER_AGENT;
   Str "-nv";
   Str "--no-cookies";
   Str "--lua-script"; Str "flickr.lua";
   Str "-o"; ItemInterpolation [Key "item_dir"; Text "/wget.log"];
   Str "--no-check-certificate";
   Str "--output-document";
   ItemInterpolation [Key "item_dir"; Text "/wget.tmp"];
   Str "--truncate-output";
   Str "-e"; Str "robots=off";
   Str "--rotate-dns";
   Str "--recursive"; Str "--level=inf";
   Str "--no-parent";
   Str "--page-requisites";
   Str "--timeout"; Str "30";
   Str "--tries"; Str "inf";
   Str "--domains"; Str "flickr.com";
   Str "--span-hosts";
   Str "--waitretry"; Str "30";
   Str "--warc-file";
   ItemInterpolation [Key "item_dir"; Text "/"; Key "warc_file_base"];
   Str "--warc-header"; Str "operator: Archive Team";
   Str "--warc-header"; Str ("flickr-dld-script-version: " +:+ VERSION);
   Str "--warc-header";
   ItemInterpolation [Text "flickr-item: "; Key "item_name"]].

(** What [realize] holds while it runs: the list [wget_args], the item, the
    lines printed, and how many requests and random numbers it has asked
    for. *)
Record realizing : Type := mkRealizing {
  wget_args : list wget_arg;
  item : gmap string string;
  stdout : list string;
  n_requests : nat;
  n_randoms : nat
}.

#[global] Instance realizing_eq_dec : EqDecision realizing.
Proof. solve_decision. Defined.

Definition print (line : string) (s : realizing) : realizing :=
  mkRealizing (wget_args s) (item s) (stdout s ++ [line]) (n_requests s)
    (n_randoms s).

Definition user_page (photo_user_id : string) : string :=
  "https://www.flickr.com/photos/" +:+ photo_user_id +:+ "/".

(** The loop [while tries < 15] with its [else]: [tries_left] is
    [15 - tries]. *)
Fixpoint fetch_photo_user (w : world) (tries_left : nat)
    (photo_user_id : string) (s : realizing) : realizing * try response :=
  match tries_left with
  | 0 => (s, Raised (Exception "Failed to brew coffee with flickr... :("))
  | S tries_left' =>
      let photo_user_response :=
        requests_get w (n_requests s) (user_page photo_user_id) in
      let s := mkRealizing (wget_args s) (item s) (stdout s)
                 (S (n_requests s)) (n_randoms s) in
      if decide (status_code photo_user_response = 418) then
        let wait_time := randint w (n_randoms s) in
        let s := mkRealizing (wget_args s) (item s) (stdout s)
                   (n_requests s) (S (n_randoms s)) in
        fetch_photo_user w tries_left' photo_user_id
          (print ("Flickr turned into a teapot. Retrying for coffee in "
                  +:+ str wait_time +:+ " seconds.") s)
      else if (bool_decide (String.length (text photo_user_response) = 0)
               || bool_decide (status_code photo_user_response <> 200))
              && negb (bool_decide (status_code photo_user_response = 404))
      then
        (print ("Received "
                +:+ str (String.length (text photo_user_response))
                +:+ " bytes.")
           (print ("Received status code "
                   +:+ str (status_code photo_user_response) +:+ ".")
              (print ("Photo " +:+ photo_user_id +:+ ".") s)),
         Raised (Exception "Something went wrong... ABORTING"))
      else (s, Returned photo_user_response)
  end.

(** What is added to [wget_args] for a photo that was found. *)
Definition photo_args (image photo_id photo_user_id photo_user : string)
  : list wget_arg :=
  [Str "--warc-header"; Str ("flickr-photo-item: " +:+ image);
   Str "--warc-header"; Str ("flickr-photo: " +:+ photo_id);
   Str "--warc-header"; Str ("flickr-photo-user-id: " +:+ photo_user_id);
   Str "--warc-header"; Str ("flickr-photo-user: " +:+ photo_user);
   Str "--warc-header";
   Str ("flickr-photo-" +:+ photo_id +:+ "-user: " +:+ photo_user);
   Str ("https://www.flickr.com/photos/" +:+ photo_user +:+ "/"
        +:+ photo_id +:+ "/");
   Str ("https://www.flickr.com/photos/" +:+ photo_user +:+ "/"
        +:+ photo_id +:+ "/in/photostream/");
   Str ("https://www.flickr.com/photos/" +:+ photo_user +:+ "/"
        +:+ photo_id +:+ "/in/photostream/lightbox/");
   Str ("https://www.flickr.com/photos/" +:+ photo_user +:+ "/"
        +:+ photo_id +:+ "/sizes/");
   Str ("https://www.flickr.com/video_download.gne?id=" +:+ photo_id)].

(** The body of [for image in images]. *)
Definition add_image (w : world) (image : string) (s : realizing)
  : realizing * option raised :=
  let photo_splitted := split "/" image in
  match photo_splitted !! 0 with
  | None => (s, Some (Builtin IndexError))
  | Some photo_user_id =>
      match fetch_photo_user w 15 photo_user_id s with
      | (s, Raised e) => (s, Some e)
      | (s, Returned photo_user_response) =>
          if decide (status_code photo_user_response = 404) then (s, None)
          else
            match og_url_user w (text photo_user_response) with
            | None => (s, Some (Builtin AttributeError))
            | Some photo_user =>
                match photo_splitted !! 1 with
                | None => (s, Some (Builtin IndexError))
                | Some photo_id =>
                    let s :=
                      print ("Found photo " +:+ photo_id +:+ " from user "
                             +:+ photo_user +:+ " with user ID "
                             +:+ photo_user_id +:+ ".") s in
                    let s :=
                      mkRealizing
                        (wget_args s
                         ++ photo_args image photo_id photo_user_id photo_user)
                        (item s) (stdout s) (n_requests s) (n_randoms s) in
                    match item s !! "item_value" with
                    | None => (s, Some (Builtin (KeyError "item_value")))
                    | Some v =>
                        (mkRealizing (wget_args s)
                           (<["item_value" :=
                                v +:+ "," +:+ photo_user +:+ "/" +:+ photo_id]>
                              (item s))
                           (stdout s) (n_requests s) (n_randoms s),
                         None)
                    end
                end
            end
      end
  end.

Fixpoint add_images (w : world) (images : list string) (s : realizing)
  : realizing * option raised :=
  match images with
  | [] => (s, None)
  | image :: images' =>
      match add_image w image s with
      | (s, Some e) => (s, Some e)
      | (s, None) => add_images w images' s
      end
  end.

(** [WgetArgs.realize]: the state it leaves, and the arguments it returns
    or the exception it raises. *)
Definition WgetArgs_realize (w : world) (item0 : gmap string string)
  : realizing * try (list string) :=
  let s := mkRealizing (base_args w) item0 [] 0 0 in
  match item s !! "item_name" with
  | None => (s, Raised (Builtin (KeyError "item_name")))
  | Some item_name =>
      if negb (contains ":" item_name) then (s, Raised AssertionError)
      else
        match split1 ":" item_name with
        | [item_type; item_value] =>
            let s :=
              mkRealizing (wget_args s)
                (<["item_value" := item_value]>
                   (<["item_type" := item_type]> (item s)))
                (stdout s) (n_requests s) (n_randoms s) in
            if negb (contains item_type "images") then
              (s, Raised AssertionError)
            else if decide (item_type = "images") then
              match add_images w (split "," item_value) s with
              | (s, Some e) => (s, Raised e)
              | (s, None) =>
                  let s :=
                    match bind_address w with
                    | Some address =>
                        print ""
                          (print ("*** Wget will bind address at "
                                  +:+ address +:+ " ***")
                             (print ""
                                (mkRealizing
                                   (wget_args s
                                    ++ [Str "--bind-address"; Str address])
                                   (item s) (stdout s) (n_requests s)
                                   (n_randoms s))))
                    | None => s
                    end in
                  (s, realize_args (wget_args s) (item s))
              end
            else (s, Raised (Exception "Unknown item"))
        | _ => (s, Raised ValueError)
        end
  end.

(** *** PrepareDirectories, MoveFiles and the file names of Deduplicate

    What these steps do to the file system is kept as the list of the
    operations they ask for, in order; the answers of [os.path.isdir] and
    [os.path.exists] are parameters, and so are the SHA-1 of the item name
    and the time stamp. *)

Inductive fs_op : Type :=
| rmtree (path : string)
| makedirs (path : string)
| create (path : string)
| rename (src dst : string).

#[global] Instance fs_op_eq_dec : EqDecision fs_op.
Proof. solve_decision. Defined.

(** [s.replace(old, new)] for single characters. *)
Fixpoint replace (old new : ascii) (s : string) : string :=
  match s with
  | EmptyString => EmptyString
  | String c s' =>
      String (if Ascii.eqb c old then new else c) (replace old new s')
  end.

Definition item_warc_gz : list piece :=
  [Key "item_dir"; Text "/"; Key "warc_file_base"; Text ".warc.gz"].

(** [PrepareDirectories.process]: the item it leaves, the operations it
    asks for, and the exception it raises, if any. *)
Definition PrepareDirectories_process (warc_prefix : string)
    (sha1_hexdigest : string -> string) (strftime : string)
    (isdir : string -> bool) (item : gmap string string)
  : gmap string string * list fs_op * option raised :=
  match item !! "item_name" with
  | None => (item, [], Some (Builtin (KeyError "item_name")))
  | Some item_name =>
      let escaped_item_name :=
        replace "~" "_" (replace "/" "_" (replace ":" "_" item_name)) in
      let item_hash := sha1_hexdigest item_name in
      match item !! "data_dir" with
      | None => (item, [], Some (Builtin (KeyError "data_dir")))
      | Some data_dir =>
          let dirname := join "/" [data_dir; item_hash] in
          let ops :=
            (if isdir dirname then [rmtree dirname] else [])
            ++ [makedirs dirname] in
          let item := <["item_dir" := dirname]> item in
          let item :=
            <["warc_file_base" :=
                warc_prefix +:+ "-" +:+ item_hash +:+ "-" +:+ strftime]>
              item in
          match interpolate item_warc_gz item with
          | Returned path => (item, ops ++ [create path], None)
          | Raised e => (item, ops, Some e)
          end
      end
  end.



(** ** Sample archives *)

Definition fields (l : list (string * string)) : gmap string value :=
  list_to_map (prod_map id VStr <$> l).

(** An HTTP response as wget stores it in a response record. *)
Definition http_response (lines : list string) (body : string) : string :=
  join CRLF lines +:+ CRLF +:+ CRLF +:+ body.

Definition sample_response (id digest p : string) : record :=
  mkRecord
    (fields [("WARC-Type", "response");
             ("WARC-Record-ID", "<urn:uuid:" +:+ id +:+ ">");
             ("WARC-Date", "2017-05-01T00:00:0" +:+ id +:+ "Z");
             ("WARC-Target-URI", "https://www.flickr.com/photos/" +:+ id);
             ("WARC-Payload-Digest", digest);
             ("WARC-Block-Digest", "sha1:BLOCK" +:+ id);
             ("Content-Length", str (String.length p))])
    p.

Definition sample_info : record :=
  mkRecord
    (fields [("WARC-Type", "warcinfo");
             ("WARC-Record-ID", "<urn:uuid:0>");
             ("WARC-Date", "2017-05-01T00:00:00Z");
             ("WARC-Filename", "flickr.warc.gz");
             ("WARC-Block-Digest", "sha1:BLOCK0");
             ("Content-Length", "23")])
    "software: Wget/1.14.lua".

(** A digest function for the samples; the theorems hold for any. *)
Definition sample_sha1 (p : string) : string :=
  "da39a3ee5e6b4b0d3255bfef95601890afd80709".

(** The first record as it is written for the archive [flickr]. *)
Definition sample_info_out : record :=
  mkRecord
    (fields [("WARC-Type", "warcinfo");
             ("WARC-Record-ID", "<urn:uuid:0>");
             ("WARC-Date", "2017-05-01T00:00:00Z");
             ("WARC-Filename", "flickr-deduplicated.warc.gz");
             ("WARC-Payload-Digest",
              "sha1:da39a3ee5e6b4b0d3255bfef95601890afd80709");
             ("Content-Length", "23")])
    "software: Wget/1.14.lua".

Definition sample_hello : string :=
  http_response ["HTTP/1.1 200 OK"; "Content-Length: 5"] "HELLO".

Definition sample_world : string :=
  http_response ["HTTP/1.1 200 OK"; "Content-Length: 5"] "WORLD".

(** An empty body, announced in the usual spelling, after a header line
    that ends in a space. *)
Definition sample_empty : string :=
  http_response ["HTTP/1.1 200 OK"; "Server: nginx "; "Content-Length: 0"] "".

(** An empty body announced in capitals. *)
Definition sample_empty_upper : string :=
  http_response ["HTTP/1.1 200 OK"; "CONTENT-LENGTH: 0"] "".

Definition sample_r1 : record := sample_response "1" "sha1:abc" sample_hello.
Definition sample_r2 : record := sample_response "2" "sha1:xyz" sample_world.
Definition sample_r3 : record := sample_response "3" "sha1:abc" sample_hello.
Definition sample_r4 : record := sample_response "4" "sha1:abc" sample_hello.
Definition sample_e1 : record := sample_response "1" "sha1:e" sample_empty.
Definition sample_e2 : record := sample_response "2" "sha1:e" sample_empty.
Definition sample_u1 : record :=
  sample_response "1" "sha1:u" sample_empty_upper.
Definition sample_u2 : record :=
  sample_response "2" "sha1:u" sample_empty_upper.

(** A response record without a WARC-Payload-Digest, and one whose digest
    has no colon. *)
Definition sample_no_digest : record :=
  mkRecord (delete "WARC-Payload-Digest" (header sample_r1)) (payload sample_r1).
Definition sample_bare_digest : record :=
  sample_response "1" "abc" sample_hello.

(** The state of the loop after [r] has been read as the first record with
    its digest, at key [k]. *)
Definition sample_state (k : string) (r : record) : state :=
  mkState {[ k := entry_of r ]} [] [sample_info; r].

(** The third record of [sample_r1; sample_r2; sample_r3] as a revisit
    record, and the texts of the log for [sample_r3] and [sample_r4]. *)
Definition sample_r3_revisit : record :=
  mkRecord
    (fields [("WARC-Type", "revisit");
             ("WARC-Record-ID", "<urn:uuid:3>");
             ("WARC-Date", "2017-05-01T00:00:03Z");
             ("WARC-Target-URI", "https://www.flickr.com/photos/3");
             ("WARC-Payload-Digest", "sha1:abc");
             ("Content-Length", "38");
             ("WARC-Refers-To", "<urn:uuid:1>");
             ("WARC-Refers-To-Date", "2017-05-01T00:00:01Z");
             ("WARC-Refers-To-Target-URI", "https://www.flickr.com/photos/1");
             ("WARC-Truncated", "length");
             ("WARC-Profile", revisit_profile)])
    (http_response ["HTTP/1.1 200 OK"; "Content-Length: 5"] "").

Definition sample_text3 : string :=
  "WARC-Record-ID:<urn:uuid:3>; WARC-Target-URI:https://www.flickr.com/photos/3; WARC-Date:2017-05-01T00:00:03Z duplicate of WARC-Record-ID:<urn:uuid:1>; WARC-Target-URI:https://www.flickr.com/photos/1; WARC-Date:2017-05-01T00:00:01Z".

Definition sample_text4 : string :=
  "WARC-Record-ID:<urn:uuid:4>; WARC-Target-URI:https://www.flickr.com/photos/4; WARC-Date:2017-05-01T00:00:04Z duplicate of WARC-Record-ID:<urn:uuid:1>; WARC-Target-URI:https://www.flickr.com/photos/1; WARC-Date:2017-05-01T00:00:01Z".

(** The capitals duplicate [sample_u2] as a revisit record. *)
Definition sample_u2_revisit : record :=
  mkRecord
    (fields [("WARC-Type", "revisit");
             ("WARC-Record-ID", "<urn:uuid:2>");
             ("WARC-Date", "2017-05-01T00:00:02Z");
             ("WARC-Target-URI", "https://www.flickr.com/photos/2");
             ("WARC-Payload-Digest", "sha1:u");
             ("Content-Length", "38");
             ("WARC-Refers-To", "<urn:uuid:1>");
             ("WARC-Refers-To-Date", "2017-05-01T00:00:01Z");
             ("WARC-Refers-To-Target-URI", "https://www.flickr.com/photos/1");
             ("WARC-Truncated", "length");
             ("WARC-Profile", revisit_profile)])
    sample_empty_upper.

(** States of the loop: at its start, after [sample_r1; sample_r2], and
    after [sample_r1; sample_r2; sample_r3]. *)
Definition sample_start : state := mkState ∅ [] [sample_info_out].

Definition sample_seen : state :=
  mkState (<["xyz" := entry_of sample_r2]> {["abc" := entry_of sample_r1]})
    [] [sample_info_out; sample_r1; sample_r2].

Definition sample_done : state :=
  mkState (<["xyz" := entry_of sample_r2]> {["abc" := entry_of sample_r1]})
    [sample_text3 +:+ CRLF]
    [sample_info_out; sample_r1; sample_r2; sample_r3_revisit].

Definition sample_archive : list record :=
  [sample_info; sample_r1; sample_r2; sample_r3; sample_r4].

(** A response whose header block has a field named X-Content-Length. *)
Definition sample_x_lines : list string :=
  ["HTTP/1.1 200 OK"; "X-Content-Length: 0"; "Content-Length: 5"].

(** Two responses with the same digest and that header block, before a body
    of five bytes. *)
Definition sample_x1 : record :=
  sample_response "1" "sha1:x" (http_response sample_x_lines "HELLO").
Definition sample_x2 : record :=
  sample_response "2" "sha1:x" (http_response sample_x_lines "HELLO").

(** [sample_r3] without its WARC-Block-Digest. *)
Definition sample_d3 : record :=
  mkRecord (delete "WARC-Block-Digest" (header sample_r3)) (payload sample_r3).

(** [sample_r1] without its WARC-Target-URI, the line of the log for
    [sample_r3] as a duplicate of it, and the state in which the write of
    [sample_r3] raises. *)
Definition sample_n1 : record :=
  mkRecord (delete "WARC-Target-URI" (header sample_r1)) (payload sample_r1).

Definition sample_text3_None : string :=
  "WARC-Record-ID:<urn:uuid:3>; WARC-Target-URI:https://www.flickr.com/photos/3; WARC-Date:2017-05-01T00:00:03Z duplicate of WARC-Record-ID:<urn:uuid:1>; WARC-Target-URI:None; WARC-Date:2017-05-01T00:00:01Z".

Definition sample_raised : state :=
  mkState {["abc" := entry_of sample_n1]} [sample_text3_None +:+ CRLF]
    [sample_info_out; sample_n1].

(** The fourth record of [sample_archive] as a revisit record, and the
    state after the four records that follow the first. *)
Definition sample_r4_revisit : record :=
  mkRecord
    (fields [("WARC-Type", "revisit");
             ("WARC-Record-ID", "<urn:uuid:4>");
             ("WARC-Date", "2017-05-01T00:00:04Z");
             ("WARC-Target-URI", "https://www.flickr.com/photos/4");
             ("WARC-Payload-Digest", "sha1:abc");
             ("Content-Length", "38");
             ("WARC-Refers-To", "<urn:uuid:1>");
             ("WARC-Refers-To-Date", "2017-05-01T00:00:01Z");
             ("WARC-Refers-To-Target-URI", "https://www.flickr.com/photos/1");
             ("WARC-Truncated", "length");
             ("WARC-Profile", revisit_profile)])
    (http_response ["HTTP/1.1 200 OK"; "Content-Length: 5"] "").

Definition sample_all_done : state :=
  mkState (<["xyz" := entry_of sample_r2]> {["abc" := entry_of sample_r1]})
    [sample_text3 +:+ CRLF; sample_text4 +:+ CRLF]
    [sample_info_out; sample_r1; sample_r2; sample_r3_revisit;
     sample_r4_revisit].

(** A first record without WARC-Block-Digest. *)
Definition sample_info_bare : record :=
  mkRecord (delete "WARC-Block-Digest" (header sample_info))
    (payload sample_info).

(** A resolver that knows the six hosts, and a text for a set. *)
Definition sample_dns : gmap string string :=
  list_to_map
    [("twitter.com", "192.0.2.1"); ("facebook.com", "192.0.2.2");
     ("youtube.com", "192.0.2.3"); ("microsoft.com", "192.0.2.4");
     ("icanhas.cheezburger.com", "192.0.2.5");
     ("archiveteam.org", "192.0.2.6")].

Definition sample_gethostbyname (host : string) : option string :=
  sample_dns !! host.

Definition sample_format_set (ip_set : gset string) : string :=
  join ", " (elements ip_set).

(** A world in which the first two requests are answered with status 418
    and the others with a page of the user alice, and a world in which no
    page is there. *)
Definition sample_net : world :=
  mkWorld
    (fun n url =>
       if (n <? 2)%nat then mkResponse 418 ""
       else mkResponse 200 "<html>photos of alice</html>")
    (fun n => 3 + n)
    (fun page => if contains "alice" page then Some "alice" else None)
    None
    "./wget-lua".

Definition sample_net_404 : world :=
  mkWorld (fun n url => mkResponse 404 "Not Found") (fun n => 1)
    (fun page => None) None "./wget-lua".

Definition sample_item (item_name : string) : gmap string string :=
  list_to_map
    [("item_name", item_name); ("data_dir", "/data");
     ("item_dir", "/data/0a1b");
     ("warc_file_base", "flickr-0a1b-20170501-000000")].

Definition sample_realizing : realizing :=
  Eval vm_compute in
    (WgetArgs_realize sample_net (sample_item "images:123/456")).1.

Definition sample_args : list string :=
  Eval vm_compute in
    match (WgetArgs_realize sample_net (sample_item "images:123/456")).2 with
    | Returned args => args
    | Raised _ => []
    end.

(** An item as the tracker hands it out, and what [PrepareDirectories]
    makes of it. *)
Definition sample_tracker_item : gmap string string :=
  list_to_map [("item_name", "images:123/456"); ("data_dir", "/data")].

Definition sample_prepared : gmap string string * list fs_op :=
  Eval vm_compute in
    (PrepareDirectories_process "flickr" sample_sha1 "20170501-000000"
       (fun _ => false) sample_tracker_item).1.

Section Deduplicate.

(** [item["warc_file_base"]] and [hashlib.sha1(p).hexdigest()]. *)
Variable warc_file_base : string.
Variable sha1_hexdigest : string -> string.

(** [warc.WARCRecord(header=h, payload=p, defaults=d)]: with [defaults]
    the constructor of the [warc] package fills in a Content-Length and a
    WARC-Payload-Digest that the header lacks; without, it stores header
    and payload as they are. *)
Definition init_defaults (h : WARCHeader) (p : string) : WARCHeader :=
  let h1 :=
    match h !! "Content-Length" with
    | Some _ => h
    | None =>
        if decide (p = "") then <["Content-Length" := Some (VStr "0")]> h
        else <["Content-Length" := Some (VInt (String.length p))]> h
    end in
  match h1 !! "WARC-Payload-Digest" with
  | Some _ => h1
  | None =>
      <["WARC-Payload-Digest" := Some (VStr ("sha1:" +:+ sha1_hexdigest p))]>
        h1
  end.

Definition WARCRecord (defaults : bool) (h : WARCHeader) (p : string)
  : WARCHeader * string :=
  if defaults then (init_defaults h p, p) else (h, p).

(** The body of the loop over the records that follow the first, up to the
    call of [write_record]: the state, and the record that is to be
    written. *)
Definition build_record (st : state) (r : record)
  : result (state * (WARCHeader * string)) :=
  if decide (record_type r = Some (VStr "response")) then
    hash_ ← record_key r;
    match hashes st !! hash_ with
    | Some e =>
        let payload_ := payload r in
        let payload := rebuilt_payload payload_ in
        if negb (declares_empty_body payload) then
          h ← delitem (revisit_header (read_header r) payload e)
                "WARC-Block-Digest";
          dID ← getitem h "WARC-Record-ID";
          dURL ← getitem h "WARC-Target-URI";
          dDate ← getitem h "WARC-Date";
          let line := log_line dID dURL dDate e.1.1 e.2 e.1.2 in
          Ok (mkState (hashes st) (dedup_log st ++ [line]) (warc_output st),
              WARCRecord false h payload)
        else
          Ok (st, WARCRecord false (read_header r) payload_)
    | None =>
        Ok (mkState (<[hash_ := entry_of r]> (hashes st)) (dedup_log st)
              (warc_output st),
            WARCRecord false (read_header r) (payload r))
    end
  else
    Ok (st, WARCRecord false (read_header r) (payload r)).

(** One turn of the loop: the record is built, then written. *)
Definition process_record (st : state) (r : record) : result state :=
  built ← build_record st r;
  write_record built.1 built.2.

(** The loop.  The two nested loops of the source read the reader to its
    end; the records are taken in order until one raises.  The state is the
    one at the end, or the one the exception leaves: when it is the write
    that raises, what the turn did before stays done. *)
Fixpoint process_records (st : state) (rs : list record)
  : state * option exn :=
  match rs with
  | [] => (st, None)
  | r :: rs' =>
      match build_record st r with
      | Raise e => (st, Some e)
      | Ok built =>
          match write_record built.1 built.2 with
          | Raise e => (built.1, Some e)
          | Ok st' => process_records st' rs'
          end
      end
  end.

(** The first record of the archive: its WARC-Filename is set, its
    WARC-Block-Digest deleted, and it is written with the defaults of the
    record constructor.  [process_info] gives the record that reaches the
    output archive. *)
Definition process_info (info_record : record) : result record :=
  let h := <["WARC-Filename" :=
               Some (VStr (warc_file_base +:+ "-deduplicated.warc.gz"))]>
             (read_header info_record) in
  h' ← delitem h "WARC-Block-Digest";
  write_to (WARCRecord true h' (payload info_record)).

(** [Deduplicate.process] on the records of the input archive.  Reading the
    first record of an empty archive gives [None], whose [header] raises. *)
Definition process (warc_input : list record) : outcome :=
  match warc_input with
  | [] => mkOutcome [] None (Some AttributeError)
  | info_record :: records =>
      match process_info info_record with
      | Raise e => mkOutcome [] None (Some e)
      | Ok info' =>
          match process_records (mkState ∅ [] [info']) records with
          | (st, Some e) => mkOutcome (warc_output st) None (Some e)
          | (st, None) =>
              mkOutcome (warc_output st)
                (Some (join CRLF (dedup_log st))) None
          end
      end
  end.

(** ** Basic facts *)

Ltac string_ne := apply String.eqb_neq; reflexivity.
Ltac not_in_list :=
  apply (proj1 (bool_decide_eq_false _)); vm_compute; reflexivity.
Ltac in_list :=
  apply (proj1 (bool_decide_eq_true _)); vm_compute; reflexivity.

Lemma record_eta (r : record) : mkRecord (header r) (payload r) = r.
Proof. by destruct r. Qed.

Lemma bind_Ok_l {A B} (a : A) (k : A -> result B) : Ok a ≫= k = k a.
Proof. reflexivity. Qed.

Lemma bind_Ok {A B} (m : result A) (k : A -> result B) (b : B) :
  m ≫= k = Ok b -> exists a, m = Ok a /\ k a = Ok b.
Proof. destruct m as [a|e]; [eauto | discriminate]. Qed.

(** *** Headers in memory and in the file *)

Lemma lookup_read_header r k : read_header r !! k = Some <$> header r !! k.
Proof. apply lookup_fmap. Qed.

Lemma get_read_header r k : get (read_header r) k = header r !! k.
Proof. unfold get. rewrite lookup_read_header. by destruct (header r !! k). Qed.

Lemma entry_of_lookups r :
  entry_of r =
  (header r !! "WARC-Record-ID", header r !! "WARC-Date",
   header r !! "WARC-Target-URI").
Proof. unfold entry_of. by rewrite !get_read_header. Qed.

(** A header without [None] is written as it is. *)
Lemma write_to_values (h : gmap string value) p :
  write_to (Some <$> h, p) = Ok (mkRecord h p).
Proof.
  unfold write_to. cbn [fst snd]. rewrite decide_True.
  - do 2 f_equal. apply map_eq. intros k.
    rewrite lookup_omap, lookup_fmap. by destruct (h !! k).
  - intros k v. rewrite lookup_fmap.
    destruct (h !! k); intros [= <-]. eauto.
Qed.

Lemma write_to_read_header r : write_to (read_header r, payload r) = Ok r.
Proof. unfold read_header. by rewrite write_to_values, record_eta. Qed.

(** A header with a [None] is not written. *)
Lemma write_to_None (h : WARCHeader) p k :
  h !! k = Some None -> write_to (h, p) = Raise TypeError.
Proof.
  intros Hk. unfold write_to. cbn [fst snd]. rewrite decide_False; [done |].
  intros Hall. by destruct (Hall k None Hk).
Qed.

(** What was written, read back. *)
Lemma write_to_Ok (h : WARCHeader) p r :
  write_to (h, p) = Ok r ->
  payload r = p /\ forall k, h !! k = Some <$> header r !! k.
Proof.
  unfold write_to. cbn [fst snd]. case_decide as Hall; [| done].
  intros [= <-]. split; [done |]. intros k. cbn [header].
  rewrite lookup_omap. destruct (h !! k) as [v|] eqn:Hk; [| done].
  by destruct (Hall k v Hk) as [w ->].
Qed.

Lemma revisit_header_other h p e f :
  f ∉ revisit_fields -> revisit_header h p e !! f = h !! f.
Proof.
  intros Hf. unfold revisit_header.
  rewrite !lookup_insert_ne; [done | intros <-; apply Hf; in_list ..].
Qed.

Lemma revisit_written_other h p oID oDate oURL f :
  f ∉ "WARC-Block-Digest" :: revisit_fields ->
  revisit_written h p oID oDate oURL !! f = h !! f.
Proof.
  intros Hf. unfold revisit_written.
  rewrite lookup_delete_ne by (intros <-; apply Hf; in_list).
  rewrite !lookup_insert_ne; [done | intros <-; apply Hf; in_list ..].
Qed.

(** The header of the revisit branch, when the index holds no [None], is
    the header that reaches the file. *)
Lemma revisit_header_values (h : gmap string value) p oID oDate oURL :
  delete "WARC-Block-Digest"
    (revisit_header (Some <$> h) p (Some oID, Some oDate, Some oURL))
  = Some <$> revisit_written h p oID oDate oURL.
Proof.
  unfold revisit_header, revisit_written. cbn [fst snd].
  by rewrite fmap_delete, !fmap_insert.
Qed.

Lemma revisit_header_reads r p e f :
  f ∈ ["WARC-Record-ID"; "WARC-Target-URI"; "WARC-Date"] ->
  delete "WARC-Block-Digest" (revisit_header (read_header r) p e) !! f
  = Some <$> header r !! f.
Proof.
  intros Hf. rewrite <- lookup_read_header.
  repeat (apply elem_of_cons in Hf as [-> | Hf];
          [by rewrite lookup_delete_ne, revisit_header_other
             by first [string_ne | not_in_list] |]).
  by apply elem_of_nil in Hf.
Qed.

Ltac lookup_assigned :=
  unfold record_type, revisit_written, revisit_header; cbn [header fst snd];
  rewrite ?lookup_delete_ne by string_ne;
  repeat (rewrite lookup_insert_ne by string_ne);
  apply lookup_insert_eq.

(** The record of the revisit branch is written when the index holds the
    record id, the date and the target URI of the first occurrence, and
    raises otherwise. *)
Lemma write_to_revisit r p (e : entry) :
  write_to
    (delete "WARC-Block-Digest" (revisit_header (read_header r) p e), p)
  = match e with
    | (Some oID, Some oDate, Some oURL) =>
        Ok (mkRecord (revisit_written (header r) p oID oDate oURL) p)
    | _ => Raise TypeError
    end.
Proof.
  destruct e as [[[oID|] [oDate|]] [oURL|]];
    [unfold read_header; by rewrite revisit_header_values, write_to_values
    | apply (write_to_None _ _ "WARC-Refers-To-Target-URI")
    | apply (write_to_None _ _ "WARC-Refers-To-Date")
    | apply (write_to_None _ _ "WARC-Refers-To-Date")
    | apply (write_to_None _ _ "WARC-Refers-To")
    | apply (write_to_None _ _ "WARC-Refers-To")
    | apply (write_to_None _ _ "WARC-Refers-To")
    | apply (write_to_None _ _ "WARC-Refers-To")];
    lookup_assigned.
Qed.

Lemma first_missing_reads h :
  first_missing h revisit_reads =
  match h !! "WARC-Block-Digest", h !! "WARC-Record-ID",
        h !! "WARC-Target-URI", h !! "WARC-Date" with
  | None, _, _, _ => Some "WARC-Block-Digest"
  | Some _, None, _, _ => Some "WARC-Record-ID"
  | Some _, Some _, None, _ => Some "WARC-Target-URI"
  | Some _, Some _, Some _, None => Some "WARC-Date"
  | Some _, Some _, Some _, Some _ => None
  end.
Proof.
  unfold revisit_reads, first_missing.
  repeat (case_decide as H; [by rewrite H |]).
  destruct (h !! "WARC-Block-Digest"), (h !! "WARC-Record-ID"),
    (h !! "WARC-Target-URI"), (h !! "WARC-Date"); done.
Qed.

Lemma first_missing_None h :
  first_missing h revisit_reads = None <->
  is_Some (h !! "WARC-Block-Digest") /\ is_Some (h !! "WARC-Record-ID") /\
  is_Some (h !! "WARC-Target-URI") /\ is_Some (h !! "WARC-Date").
Proof.
  rewrite first_missing_reads.
  destruct (h !! "WARC-Block-Digest"), (h !! "WARC-Record-ID"),
    (h !! "WARC-Target-URI"), (h !! "WARC-Date"); split;
    first [done | by intros (? & ? & ? & ?); eauto
          | by intros ([? ?] & [? ?] & [? ?] & [? ?])].
Qed.

(** *** The record a turn builds *)

Lemma build_record_other st r :
  record_type r ≠ Some (VStr "response") ->
  build_record st r = Ok (st, (read_header r, payload r)).
Proof. intros Ht. unfold build_record. by rewrite decide_False. Qed.

Lemma build_record_first st r k :
  record_type r = Some (VStr "response") ->
  record_key r = Ok k ->
  hashes st !! k = None ->
  build_record st r =
  Ok (mkState (<[k := entry_of r]> (hashes st)) (dedup_log st)
        (warc_output st),
      (read_header r, payload r)).
Proof.
  intros Ht Hk He. unfold build_record. rewrite decide_True by done.
  rewrite Hk, bind_Ok_l; cbv beta. by rewrite He.
Qed.

Lemma build_record_empty_body st r k e :
  record_type r = Some (VStr "response") ->
  record_key r = Ok k ->
  hashes st !! k = Some e ->
  declares_empty_body (rebuilt_payload (payload r)) = true ->
  build_record st r = Ok (st, (read_header r, payload r)).
Proof.
  intros Ht Hk He Hd. unfold build_record. rewrite decide_True by done.
  rewrite Hk, bind_Ok_l; cbv beta. by rewrite He, Hd.
Qed.

Lemma build_record_revisit st r k e :
  record_type r = Some (VStr "response") ->
  record_key r = Ok k ->
  hashes st !! k = Some e ->
  declares_empty_body (rebuilt_payload (payload r)) = false ->
  build_record st r =
  match first_missing (header r) revisit_reads with
  | Some f => Raise (KeyError f)
  | None =>
      Ok (mkState (hashes st)
            (dedup_log st ++
               [log_line (header r !! "WARC-Record-ID")
                  (header r !! "WARC-Target-URI") (header r !! "WARC-Date")
                  e.1.1 e.2 e.1.2])
            (warc_output st),
          (delete "WARC-Block-Digest"
             (revisit_header (read_header r) (rebuilt_payload (payload r)) e),
           rebuilt_payload (payload r)))
  end.
Proof.
  intros Ht Hk He Hd. unfold build_record. rewrite decide_True by done.
  rewrite Hk, bind_Ok_l; cbv beta. rewrite He, Hd. cbn [negb].
  unfold delitem, getitem, WARCRecord.
  rewrite revisit_header_other by not_in_list.
  rewrite lookup_read_header, first_missing_reads.
  destruct (header r !! "WARC-Block-Digest") as [bd|]; [| done].
  cbn [fmap option_fmap option_map]. rewrite bind_Ok_l; cbv beta.
  rewrite !revisit_header_reads by in_list.
  destruct (header r !! "WARC-Record-ID") as [dID|]; [| done].
  cbn [fmap option_fmap option_map]. rewrite bind_Ok_l; cbv beta.
  destruct (header r !! "WARC-Target-URI") as [dURL|]; [| done].
  cbn [fmap option_fmap option_map]. rewrite bind_Ok_l; cbv beta.
  destruct (header r !! "WARC-Date") as [dDate|]; [| done].
  reflexivity.
Qed.

(** *** One turn of the loop *)

(** A turn ends without an exception or with one. *)
Lemma step_or_raises st r :
  (exists st', step st r st') \/ (exists x st', raises st r x st').
Proof.
  destruct (decide (record_type r = Some (VStr "response"))) as [Ht|Ht];
    [| left; eexists; by apply step_other].
  destruct (record_key r) as [k|x] eqn:Hk;
    [| right; eexists _, _; by apply raises_key].
  destruct (hashes st !! k) as [e|] eqn:He;
    [| left; eexists; by eapply step_first].
  destruct (declares_empty_body (rebuilt_payload (payload r))) eqn:Hd;
    [left; eexists; by eapply step_empty_body |].
  destruct (first_missing (header r) revisit_reads) as [f|] eqn:Hf;
    [right; eexists _, _; by eapply raises_missing |].
  pose proof (proj1 (first_missing_None _) Hf)
    as ([bd Hbd] & [dID HdID] & [dURL HdURL] & [dDate HdDate]).
  destruct e as [[[oID|] [oDate|]] [oURL|]];
    [left; eexists; by eapply step_revisit | right ..];
    eexists _, _; eapply raises_write; try done; cbn [fst snd]; auto.
Qed.

Lemma step_process_record st r st' :
  step st r st' ->
  process_record st r = Ok st' /\
  forall rs, process_records st (r :: rs) = process_records st' rs.
Proof.
  intros Hstep.
  assert (exists built,
            build_record st r = Ok built /\
            write_record built.1 built.2 = Ok st') as (built & Hb & Hw).
  { destruct Hstep as [Ht | k Ht Hk He | k e Ht Hk He Hd
                      | k oID oDate oURL bd dID dURL dDate Ht Hk He Hd Hbd
                          HdID HdURL HdDate].
    - eexists. split; [by apply build_record_other |].
      unfold write_record. cbn [fst snd]. by rewrite write_to_read_header.
    - eexists. split; [by apply build_record_first |].
      unfold write_record. cbn [fst snd]. by rewrite write_to_read_header.
    - eexists. split; [by eapply build_record_empty_body |].
      unfold write_record. cbn [fst snd]. by rewrite write_to_read_header.
    - eexists. split.
      + erewrite build_record_revisit by done.
        rewrite (proj2 (first_missing_None _)) by eauto 10. reflexivity.
      + unfold write_record. cbn [fst snd]. rewrite write_to_revisit.
        rewrite bind_Ok_l; cbv beta. cbn [hashes dedup_log warc_output].
        by rewrite HdID, HdURL, HdDate. }
  split.
  - unfold process_record. by rewrite Hb, bind_Ok_l.
  - intros rs. cbn [process_records]. by rewrite Hb, Hw.
Qed.

Lemma raises_process_record st r x st' :
  raises st r x st' ->
  process_record st r = Raise x /\
  forall rs, process_records st (r :: rs) = (st', Some x).
Proof.
  intros Hraise.
  assert (build_record st r = Raise x /\ st' = st \/
          exists built,
            build_record st r = Ok built /\ built.1 = st' /\
            write_record built.1 built.2 = Raise x)
    as [[Hb ->] | (built & Hb & <- & Hw)].
  { destruct Hraise as [x Ht Hk | k e f Ht Hk He Hd Hf
                       | k e Ht Hk He Hd Hf Hnone].
    - left. split; [| done]. unfold build_record.
      rewrite decide_True by done. by rewrite Hk.
    - left. split; [| done]. erewrite build_record_revisit by done.
      by rewrite Hf.
    - right. eexists. split.
      + erewrite build_record_revisit by done. by rewrite Hf.
      + split; [done |]. unfold write_record. cbn [fst snd].
        rewrite write_to_revisit.
        destruct e as [[[oID|] [oDate|]] [oURL|]]; try done.
        cbn [fst snd] in Hnone. by destruct Hnone as [? | [? | ?]]. }
  - split.
    + unfold process_record. by rewrite Hb.
    + intros rs. cbn [process_records]. by rewrite Hb.
  - split.
    + unfold process_record. by rewrite Hb, bind_Ok_l.
    + intros rs. cbn [process_records]. by rewrite Hb, Hw.
Qed.

Lemma process_record_step st r st' :
  process_record st r = Ok st' <-> step st r st'.
Proof.
  split; [| by intros [? _]%step_process_record].
  intros Hrun.
  destruct (step_or_raises st r) as [[st1 Hstep] | (x & st1 & Hraise)].
  - apply step_process_record in Hstep as Heq. destruct Heq as [Heq _].
    rewrite Heq in Hrun. by injection Hrun as <-.
  - apply raises_process_record in Hraise as [Heq _]. congruence.
Qed.

Lemma process_record_raises_iff st r x :
  process_record st r = Raise x <-> exists st', raises st r x st'.
Proof.
  split; [| by intros [st' [? _]%raises_process_record]].
  intros Hrun.
  destruct (step_or_raises st r) as [[st1 Hstep] | (x1 & st1 & Hraise)].
  - apply step_process_record in Hstep as [Heq _]. congruence.
  - apply raises_process_record in Hraise as Heq. destruct Heq as [Heq _].
    rewrite Heq in Hrun. injection Hrun as <-. eauto.
Qed.

(** The state a raising turn leaves is the state before it, up to the
    line that has gone to the log when the write raises. *)
Lemma raises_state st r x st' :
  raises st r x st' ->
  hashes st' = hashes st /\ warc_output st' = warc_output st /\
  (x <> TypeError -> st' = st).
Proof. by destruct 1. Qed.

Lemma raises_functional st r x st1 y st2 :
  raises st r x st1 -> raises st r y st2 -> x = y /\ st1 = st2.
Proof.
  intros H1 H2.
  pose proof (proj2 (raises_process_record _ _ _ _ H1) []) as E1.
  pose proof (proj2 (raises_process_record _ _ _ _ H2) []) as E2.
  rewrite E1 in E2. by injection E2 as -> ->.
Qed.

Lemma process_record_other st r :
  record_type r ≠ Some (VStr "response") ->
  process_record st r =
  Ok (mkState (hashes st) (dedup_log st) (warc_output st ++ [r])).
Proof. intros Ht. apply process_record_step. by constructor. Qed.

Lemma step_output st r st' :
  step st r st' -> exists r', warc_output st' = warc_output st ++ [r'].
Proof. destruct 1; simpl; eauto. Qed.

(** The index after a turn: as before, with the key of a response already
    in it, or with the entry of the response at a key that was free. *)
Lemma step_hashes st r st' :
  step st r st' ->
  (hashes st' = hashes st /\
   forall k, record_type r = Some (VStr "response") -> record_key r = Ok k ->
     is_Some (hashes st !! k)) \/
  (exists k, record_type r = Some (VStr "response") /\ record_key r = Ok k /\
     hashes st !! k = None /\ hashes st' = <[k := entry_of r]> (hashes st)).
Proof.
  destruct 1 as [Ht | k Ht Hk He | k e Ht Hk He Hd
                | k oID oDate oURL bd dID dURL dDate Ht Hk He Hd Hbd HdID
                    HdURL HdDate];
    simpl.
  - left. split; [done | intros; congruence].
  - right. eauto.
  - left. split; [done |]. intros k' _ Hk'. rewrite Hk in Hk'.
    injection Hk' as <-. eauto.
  - left. split; [done |]. intros k' _ Hk'. rewrite Hk in Hk'.
    injection Hk' as <-. eauto.
Qed.

Lemma step_hashes_mono st r st' k e :
  step st r st' -> hashes st !! k = Some e -> hashes st' !! k = Some e.
Proof.
  intros [[-> _] | (k' & _ & _ & Hnone & ->)]%step_hashes He; [done |].
  rewrite lookup_insert_ne; [done | congruence].
Qed.

(** *** The loop *)

(** The first turn of a run of the loop. *)
Lemma process_records_cons_inv st r rs st' err :
  process_records st (r :: rs) = (st', err) ->
  (exists st1, step st r st1 /\ process_records st1 rs = (st', err)) \/
  (exists x, err = Some x /\ raises st r x st').
Proof.
  intros Hrun.
  destruct (step_or_raises st r) as [[st1 Hstep] | (x & st1 & Hraise)].
  - left. exists st1. split; [done |].
    by rewrite <- (proj2 (step_process_record _ _ _ Hstep) rs).
  - right. exists x.
    rewrite (proj2 (raises_process_record _ _ _ _ Hraise) rs) in Hrun.
    by injection Hrun as <- <-.
Qed.

Lemma process_records_hashes_mono rs : forall st st' err k e,
  process_records st rs = (st', err) ->
  hashes st !! k = Some e -> hashes st' !! k = Some e.
Proof.
  induction rs as [|r rs IH]; intros st st' err k e Hrun He.
  - by injection Hrun as <- _.
  - apply process_records_cons_inv in Hrun
      as [(st1 & Hstep & Hrun) | (x & -> & Hraise)].
    + eapply IH; [done |]. by eapply step_hashes_mono.
    + apply raises_state in Hraise as (-> & _ & _). done.
Qed.

Lemma process_records_output rs : forall st st' err,
  process_records st rs = (st', err) ->
  exists outs, warc_output st' = warc_output st ++ outs.
Proof.
  induction rs as [|r rs IH]; intros st st' err Hrun.
  - injection Hrun as <- _. exists []. by rewrite app_nil_r.
  - apply process_records_cons_inv in Hrun
      as [(st1 & Hstep & Hrun) | (x & -> & Hraise)].
    + apply step_output in Hstep as [r' Hr'].
      apply IH in Hrun as [outs Houts]. exists (r' :: outs).
      by rewrite Houts, Hr', <- app_assoc.
    + apply raises_state in Hraise as (_ & -> & _).
      exists []. by rewrite app_nil_r.
Qed.

(** *** Strings *)

Lemma contains_colon_cons c s :
  contains ":" (String c s) = Ascii.eqb c ":" || contains ":" s.
Proof.
  change (contains ":" (String c s))
    with (String.prefix ":" (String c s) || contains ":" s).
  f_equal. cbn [String.prefix].
  destruct (ascii_dec ":" c) as [<-|Hne].
  - rewrite Ascii.eqb_refl. by destruct s.
  - symmetry. apply Ascii.eqb_neq. congruence.
Qed.

Lemma append_cons c (s t : string) : String c s +:+ t = String c (s +:+ t).
Proof. reflexivity. Qed.

Lemma append_nil_r (s : string) : s +:+ "" = s.
Proof. induction s as [|c s IH]; [done |]. by rewrite append_cons, IH. Qed.

Lemma append_assoc (s t u : string) : (s +:+ t) +:+ u = s +:+ t +:+ u.
Proof. induction s as [|c s IH]; [done |]. by rewrite !append_cons, IH. Qed.

Lemma split1_from_no_colon s : forall cur,
  contains ":" s = false -> split1_from ":" cur s = [cur +:+ s].
Proof.
  induction s as [|c s IH]; intros cur Hs.
  - simpl. by rewrite append_nil_r.
  - rewrite contains_colon_cons in Hs. apply orb_false_iff in Hs as [Hc Hs].
    simpl. rewrite Hc, IH by done. by rewrite append_assoc.
Qed.

Lemma split1_from_first_colon before after : forall cur,
  contains ":" before = false ->
  split1_from ":" cur (before +:+ ":" +:+ after) = [cur +:+ before; after].
Proof.
  induction before as [|c s IH]; intros cur Hs.
  - by rewrite append_nil_r.
  - rewrite contains_colon_cons in Hs. apply orb_false_iff in Hs as [Hc Hs].
    rewrite append_cons. simpl. rewrite Hc, IH by done.
    by rewrite append_assoc.
Qed.

Lemma splitlines_from_line l : forall cur rest,
  no_line_end l = true ->
  splitlines_from cur (l +:+ CRLF +:+ rest)
  = (cur +:+ l) :: splitlines_from "" rest.
Proof.
  induction l as [|c l IH]; intros cur rest Hl.
  - by rewrite append_nil_r.
  - simpl in Hl. apply andb_true_iff in Hl as [[Hlf Hcr]%andb_true_iff Hl].
    apply negb_true_iff in Hlf, Hcr. rewrite append_cons. simpl.
    rewrite Hlf, Hcr, IH by done. by rewrite append_assoc.
Qed.

Lemma splitlines_from_CRLF rest :
  splitlines_from "" (CRLF +:+ rest) = "" :: splitlines_from "" rest.
Proof. exact (splitlines_from_line "" "" rest eq_refl). Qed.

Lemma join_cons_cons sep (x y : string) l :
  join sep (x :: y :: l) = x +:+ sep +:+ join sep (y :: l).
Proof. reflexivity. Qed.

Lemma splitlines_from_join ls : forall l rest,
  Forall (fun l => no_line_end l = true) (l :: ls) ->
  splitlines_from "" (join CRLF (l :: ls) +:+ CRLF +:+ rest)
  = (l :: ls) ++ splitlines_from "" rest.
Proof.
  induction ls as [|l' ls IH]; intros l rest [Hl Hls]%Forall_cons.
  - simpl join. by rewrite splitlines_from_line.
  - rewrite join_cons_cons, !append_assoc, splitlines_from_line by done.
    simpl. f_equal. by apply IH.
Qed.

Lemma leading_headers_block lines after :
  Forall header_line lines ->
  leading_headers (lines ++ "" :: after) = lines.
Proof.
  induction 1 as [|l lines (Hne & Hstrip & Hl) _ IH].
  - reflexivity.
  - change (leading_headers ((l :: lines) ++ "" :: after))
      with (if decide (l = CRLF \/ l = String LF "" \/ l = "") then []
            else strip l :: leading_headers (lines ++ "" :: after)).
    rewrite decide_False, Hstrip, IH; [done |].
    intros [-> | [-> | ->]]; done.
Qed.

Lemma leading_headers_http lines body :
  Forall header_line lines ->
  leading_headers (splitlines (http_response lines body)) = lines.
Proof.
  intros Hlines. unfold splitlines, http_response.
  destruct lines as [|l ls].
  - change (join CRLF [] +:+ CRLF +:+ CRLF +:+ body)
      with (CRLF +:+ CRLF +:+ body).
    by rewrite splitlines_from_CRLF.
  - rewrite splitlines_from_join
      by (eapply Forall_impl; [done | by intros ? (_ & _ & ?)]).
    rewrite splitlines_from_CRLF. by apply leading_headers_block.
Qed.

Lemma rebuilt_payload_is_header_block_aux lines body :
  Forall header_line lines ->
  rebuilt_payload (http_response lines body) = http_response lines "".
Proof.
  intros Hlines. unfold rebuilt_payload.
  rewrite leading_headers_http by done.
  unfold http_response. by rewrite (append_nil_r CRLF).
Qed.

(** ** The digest index *)

(** C5. The index keeps the first occurrence: over a run of the loop, with
    or without an exception at its end, an entry that is in the index stays
    as it is, and an entry that the run adds at a digest is the record id,
    date and target URI of the first response record of the run with that
    digest. *)
Theorem hashes_first_occurrence_wins rs : forall st st' err,
  process_records st rs = (st', err) ->
  (forall k e, hashes st !! k = Some e -> hashes st' !! k = Some e) /\
  (forall k e, hashes st !! k = None -> hashes st' !! k = Some e ->
     exists pre r post,
       rs = pre ++ r :: post /\
       record_type r = Some (VStr "response") /\
       record_key r = Ok k /\
       e = entry_of r /\
       Forall (fun r0 => ~ (record_type r0 = Some (VStr "response") /\
                            record_key r0 = Ok k)) pre).
Proof.
  intros st st' err Hrun. split.
  { intros k e. by eapply process_records_hashes_mono. }
  revert st st' err Hrun.
  induction rs as [|r rs IH]; intros st st' err Hrun k e Hnone Hsome.
  - injection Hrun as <- _. congruence.
  - apply process_records_cons_inv in Hrun
      as [(st1 & Hstep & Hrun) | (x & -> & Hraise)].
    2:{ apply raises_state in Hraise as (Heq & _ & _). congruence. }
    destruct (hashes st1 !! k) as [e1|] eqn:Hk1.
    + assert (e = e1) as <-.
      { eapply process_records_hashes_mono in Hk1; [| done]. congruence. }
      apply step_hashes in Hstep
        as [[Heq _] | (k' & Ht & Hk & _ & Heq)]; rewrite Heq in Hk1;
        [congruence |].
      destruct (decide (k' = k)) as [->|Hne].
      * rewrite lookup_insert_eq in Hk1. injection Hk1 as <-.
        exists [], r, rs. by repeat split.
      * rewrite lookup_insert_ne in Hk1 by done. congruence.
    + destruct (IH _ _ _ Hrun k e Hk1 Hsome)
        as (pre & r' & post & -> & Ht & Hk & He & Hpre).
      exists (r :: pre), r', post. repeat split; try done.
      constructor; [| done]. intros [Ht0 Hk0].
      apply step_hashes in Hstep
        as [[Heq Hin] | (k' & _ & Hk' & _ & Heq)].
      * destruct (Hin k Ht0 Hk0) as [? ?]. rewrite Heq in Hk1. congruence.
      * rewrite Hk0 in Hk'. injection Hk' as <-.
        rewrite Heq, lookup_insert_eq in Hk1. congruence.
Qed.

(** ** Duplicates *)

(** C1, as the code has it. A response whose digest is in the index and
    whose rebuilt header block contains [Content-Length: 0] or
    [content-length: 0] is written as it was read: header (so its kind and
    its Content-Length) and payload are those of the input record, no line
    is added to the log, and the index is left as it is. *)
Theorem empty_body_duplicate_written_as_read st r k e :
  record_type r = Some (VStr "response") ->
  record_key r = Ok k ->
  hashes st !! k = Some e ->
  declares_empty_body (rebuilt_payload (payload r)) = true ->
  exists st',
    process_record st r = Ok st' /\
    warc_output st' = warc_output st ++ [r] /\
    dedup_log st' = dedup_log st /\
    hashes st' = hashes st.
Proof.
  intros Ht Hk He Hd.
  exists (mkState (hashes st) (dedup_log st) (warc_output st ++ [r])).
  split; [| done]. apply process_record_step. by eapply step_empty_body.
Qed.

(** C2, as the code has it. A response record without a WARC-Payload-Digest
    ends the run: [get] gives [None], which has no [split], and the
    AttributeError leaves the loop with nothing written and nothing indexed
    for the record or for those after it. *)
Theorem response_without_digest_raises st r rs :
  record_type r = Some (VStr "response") ->
  header r !! "WARC-Payload-Digest" = None ->
  process_record st r = Raise AttributeError /\
  process_records st (r :: rs) = (st, Some AttributeError).
Proof.
  intros Ht Hd.
  assert (raises st r AttributeError st) as Hraise.
  { apply raises_key; [done |]. unfold record_key.
    by rewrite get_read_header, Hd. }
  apply raises_process_record in Hraise as [Hstep Hrun]. by split.
Qed.

(** C3, as the code has it. Two response records with the same digest key.
    The first is read while the key is not in the index and carries a
    record id, a date and a target URI. The second comes after any records
    in between; its rebuilt header block contains neither
    [Content-Length: 0] nor [content-length: 0], and it carries the fields
    the rewrite deletes and reads. Then the first is written as it was
    read, and the second is written as a revisit record: the payload is
    the rebuilt header block (for an HTTP response, its header lines and
    the empty line, without the body), Content-Length its length, the three
    WARC-Refers-To fields are the record id, date and target URI of the
    first, WARC-Truncated and WARC-Profile are set, WARC-Block-Digest is
    gone, and every other field is as it was. *)
Theorem duplicate_rewritten_as_revisit st r1 mid st1 r2 k oID oDate oURL :
  record_type r1 = Some (VStr "response") ->
  record_key r1 = Ok k ->
  hashes st !! k = None ->
  header r1 !! "WARC-Record-ID" = Some oID ->
  header r1 !! "WARC-Date" = Some oDate ->
  header r1 !! "WARC-Target-URI" = Some oURL ->
  process_records st (r1 :: mid) = (st1, None) ->
  record_type r2 = Some (VStr "response") ->
  record_key r2 = Ok k ->
  contains "Content-Length: 0" (rebuilt_payload (payload r2)) = false ->
  contains "content-length: 0" (rebuilt_payload (payload r2)) = false ->
  is_Some (header r2 !! "WARC-Block-Digest") ->
  is_Some (header r2 !! "WARC-Record-ID") ->
  is_Some (header r2 !! "WARC-Target-URI") ->
  is_Some (header r2 !! "WARC-Date") ->
  exists outs st2 r2',
    warc_output st1 = warc_output st ++ r1 :: outs /\
    process_record st1 r2 = Ok st2 /\
    warc_output st2 = warc_output st1 ++ [r2'] /\
    payload r2' = rebuilt_payload (payload r2) /\
    (forall lines body,
       payload r2 = http_response lines body -> Forall header_line lines ->
       payload r2' = join CRLF lines +:+ CRLF +:+ CRLF) /\
    record_type r2' = Some (VStr "revisit") /\
    header r2' !! "Content-Length" =
      Some (VStr (str (String.length (payload r2')))) /\
    header r2' !! "WARC-Refers-To" = Some oID /\
    header r2' !! "WARC-Refers-To-Date" = Some oDate /\
    header r2' !! "WARC-Refers-To-Target-URI" = Some oURL /\
    header r2' !! "WARC-Truncated" = Some (VStr "length") /\
    header r2' !! "WARC-Profile" =
      Some (VStr
        "http://netpreserve.org/warc/1.0/revisit/identical-payload-digest") /\
    header r2' !! "WARC-Block-Digest" = None /\
    (forall f, f ∉ "WARC-Block-Digest" :: revisit_fields ->
       header r2' !! f = header r2 !! f).
Proof.
  intros Ht1 Hk1 Hnone HoID HoDate HoURL Hrun Ht2 Hk2 Hd1 Hd2 [bd Hbd]
    [dID HdID] [dURL HdURL] [dDate HdDate].
  assert (declares_empty_body (rebuilt_payload (payload r2)) = false) as Hd
    by (unfold declares_empty_body; by rewrite Hd1, Hd2).
  apply process_records_cons_inv in Hrun
    as [(st0 & Hs1 & Hrun) | (x & [=] & _)].
  assert (st0 = mkState (<[k := entry_of r1]> (hashes st)) (dedup_log st)
                  (warc_output st ++ [r1])) as ->.
  { apply process_record_step in Hs1.
    assert (step st r1
              (mkState (<[k := entry_of r1]> (hashes st)) (dedup_log st)
                 (warc_output st ++ [r1]))) as Hs by by eapply step_first.
    apply process_record_step in Hs. congruence. }
  assert (hashes st1 !! k = Some (Some oID, Some oDate, Some oURL)) as He.
  { eapply process_records_hashes_mono; [done |]. cbn [hashes].
    rewrite lookup_insert_eq, entry_of_lookups. by rewrite HoID, HoDate, HoURL. }
  apply process_records_output in Hrun as [outs Houts].
  cbn [warc_output] in Houts. rewrite <- app_assoc in Houts.
  eexists outs, _, _. split; [done |]. split.
  { apply process_record_step. by eapply step_revisit. }
  cbn [warc_output payload]. split; [done |]. split; [done |]. split.
  { intros lines body -> Hlines.
    by rewrite rebuilt_payload_is_header_block_aux. }
  repeat split; try lookup_assigned.
  - unfold revisit_written. cbn [header]. apply lookup_delete_eq.
  - apply revisit_written_other.
Qed.

(** An exception in the loop is the exception of the run, and no log file
    is written. *)
Lemma process_aborted info_record records info' st e :
  process_info info_record = Ok info' ->
  process_records (mkState ∅ [] [info']) records = (st, Some e) ->
  process (info_record :: records) = mkOutcome (warc_output st) None (Some e).
Proof. intros Hinfo Hrun. unfold process. by rewrite Hinfo, Hrun. Qed.

(** ** Digest keys *)

(** C10. The key of a response record is what follows the first colon of
    its WARC-Payload-Digest, and it is the key at which the index is read
    and written. A digest without a colon splits into one piece, the piece
    at index 1 is not there, and the IndexError ends the loop with nothing
    written and nothing indexed for the record. *)
Theorem digest_key_after_first_colon st r s rs :
  record_type r = Some (VStr "response") ->
  header r !! "WARC-Payload-Digest" = Some (VStr s) ->
  (forall before after,
     s = before +:+ ":" +:+ after -> contains ":" before = false ->
     record_key r = Ok after /\
     (hashes st !! after = None ->
      process_record st r =
        Ok (mkState (<[after := entry_of r]> (hashes st)) (dedup_log st)
              (warc_output st ++ [r]))) /\
     (is_Some (hashes st !! after) ->
      forall st', process_record st r = Ok st' -> hashes st' = hashes st)) /\
  (contains ":" s = false ->
     process_record st r = Raise IndexError /\
     process_records st (r :: rs) = (st, Some IndexError)).
Proof.
  intros Ht Hd. split.
  - intros before after -> Hb.
    assert (record_key r = Ok after) as Hk.
    { unfold record_key. rewrite get_read_header, Hd. simpl. unfold split1.
      by rewrite split1_from_first_colon. }
    split; [done |]. split.
    + intros Hnone. apply process_record_step. by apply step_first.
    + intros [e He] st' Hstep%process_record_step.
      apply step_hashes in Hstep as [[Heq _] | (k & _ & Hk' & Hnone & _)];
        [done |].
      rewrite Hk in Hk'. injection Hk' as <-. congruence.
  - intros Hs.
    assert (raises st r IndexError st) as Hraise.
    { apply raises_key; [done |]. unfold record_key.
      rewrite get_read_header, Hd. simpl. unfold split1.
      by rewrite split1_from_no_colon. }
    apply raises_process_record in Hraise as [Hstep Hrun]. by split.
Qed.

(** The key of a record is not there for want of a string or of a colon,
    and for nothing else. *)
Lemma record_key_Raise r x :
  record_key r = Raise x -> x = AttributeError \/ x = IndexError.
Proof.
  unfold record_key, digest_key, getindex.
  destruct (get _ _) as [[s|n]|]; [| intros [= <-]; by left ..].
  destruct (_ !! _); [done |]. intros [= <-]. by right.
Qed.

(** ** Declared lengths *)

Lemma step_content_length_ok st r st' :
  step st r st' ->
  content_length_ok r ->
  Forall content_length_ok (warc_output st) ->
  Forall content_length_ok (warc_output st').
Proof.
  intros Hstep Hr Hout.
  destruct Hstep; simpl; apply Forall_app; split; try done;
    apply Forall_singleton; try done.
  unfold content_length_ok, revisit_written. cbn [header payload].
  rewrite lookup_delete_ne by string_ne.
  repeat (rewrite lookup_insert_ne by string_ne).
  rewrite lookup_insert_eq. by apply bool_decide_pack.
Qed.

Lemma process_records_content_length_ok rs : forall st st' err,
  process_records st rs = (st', err) ->
  Forall content_length_ok rs ->
  Forall content_length_ok (warc_output st) ->
  Forall content_length_ok (warc_output st').
Proof.
  induction rs as [|r rs IH]; intros st st' err Hrun Hrs Hout.
  - by injection Hrun as <- _.
  - apply Forall_cons in Hrs as [Hr Hrs].
    apply process_records_cons_inv in Hrun
      as [(st1 & Hstep & Hrun) | (x & -> & Hraise)].
    + eapply IH; [done | done |]. by eapply step_content_length_ok.
    + apply raises_state in Hraise as (_ & -> & _). done.
Qed.

(** *** The first record *)

Lemma init_defaults_other h p f :
  f ≠ "Content-Length" -> f ≠ "WARC-Payload-Digest" ->
  init_defaults h p !! f = h !! f.
Proof.
  intros Hcl Hpd. unfold init_defaults.
  destruct (h !! "Content-Length") eqn:Hh.
  - destruct (h !! "WARC-Payload-Digest");
      [done | by rewrite lookup_insert_ne].
  - case_decide.
    + destruct (<["Content-Length":=Some (VStr "0")]> h
                  !! "WARC-Payload-Digest");
        by rewrite ?lookup_insert_ne.
    + destruct (<["Content-Length":=Some (VInt (String.length p))]> h
                  !! "WARC-Payload-Digest");
        by rewrite ?lookup_insert_ne.
Qed.

Lemma init_defaults_content_length h p :
  init_defaults h p !! "Content-Length" =
  match h !! "Content-Length" with
  | Some v => Some v
  | None =>
      Some (Some (if decide (p = "") then VStr "0"
                  else VInt (String.length p)))
  end.
Proof.
  unfold init_defaults.
  destruct (h !! "Content-Length") as [v|] eqn:Hcl.
  - destruct (h !! "WARC-Payload-Digest");
      [done | by rewrite lookup_insert_ne by string_ne].
  - case_decide.
    + destruct (<["Content-Length":=Some (VStr "0")]> h
                  !! "WARC-Payload-Digest");
        [| rewrite lookup_insert_ne by string_ne];
        by rewrite lookup_insert_eq.
    + destruct (<["Content-Length":=Some (VInt (String.length p))]> h
                  !! "WARC-Payload-Digest");
        [| rewrite lookup_insert_ne by string_ne];
        by rewrite lookup_insert_eq.
Qed.

(** The defaults are values: a header without [None] stays without. *)
Lemma init_defaults_values h p :
  map_Forall (fun _ v => is_Some v) h ->
  map_Forall (fun (_ : string) (v : option value) => is_Some v)
    (init_defaults h p).
Proof.
  intros Hh. unfold init_defaults.
  assert (map_Forall (fun (_ : string) (v : option value) => is_Some v)
            match h !! "Content-Length" with
            | Some _ => h
            | None =>
                if decide (p = "")
                then <["Content-Length" := Some (VStr "0")]> h
                else <["Content-Length" := Some (VInt (String.length p))]> h
            end) as Hh1.
  { destruct (h !! "Content-Length"); [done |].
    case_decide; apply map_Forall_insert_2; eauto. }
  destruct (_ !! "WARC-Payload-Digest"); [done |].
  apply map_Forall_insert_2; eauto.
Qed.

(** The header the first record is written with. *)
Lemma process_info_Ok info_record info' :
  process_info info_record = Ok info' <->
  is_Some (header info_record !! "WARC-Block-Digest") /\
  info' =
    mkRecord
      (omap id
         (init_defaults
            (delete "WARC-Block-Digest"
               (<["WARC-Filename" :=
                    Some (VStr (warc_file_base +:+ "-deduplicated.warc.gz"))]>
                  (read_header info_record)))
            (payload info_record)))
      (payload info_record).
Proof.
  unfold process_info, delitem.
  rewrite lookup_insert_ne by string_ne. rewrite lookup_read_header.
  destruct (header info_record !! "WARC-Block-Digest") as [bd|].
  - cbn [fmap option_fmap option_map]. rewrite bind_Ok_l; cbv beta.
    unfold WARCRecord, write_to. cbn [fst snd]. rewrite decide_True.
    + split; [intros [= <-]; eauto | by intros [_ ->]].
    + apply init_defaults_values, map_Forall_delete, map_Forall_insert_2;
        [by eauto |].
      intros k v. rewrite lookup_read_header.
      destruct (header info_record !! k); intros [= <-]. eauto.
  - cbn [fmap option_fmap option_map]. split; [done |]. by intros [[? [=]] _].
Qed.

(** The fields of the first record of the output, read off the header it
    is written with. *)
Lemma process_info_lookup info_record info' k :
  process_info info_record = Ok info' ->
  header info' !! k =
  init_defaults
    (delete "WARC-Block-Digest"
       (<["WARC-Filename" :=
            Some (VStr (warc_file_base +:+ "-deduplicated.warc.gz"))]>
          (read_header info_record)))
    (payload info_record) !! k ≫= id.
Proof.
  intros [_ ->]%process_info_Ok. cbn [header]. apply lookup_omap.
Qed.

Lemma process_info_content_length_ok r r' :
  process_info r = Ok r' -> content_length_ok r -> content_length_ok r'.
Proof.
  intros Hinfo. unfold content_length_ok.
  rewrite (process_info_lookup _ _ _ Hinfo), init_defaults_content_length.
  apply process_info_Ok in Hinfo as [_ ->]. cbn [payload].
  rewrite lookup_delete_ne, lookup_insert_ne by string_ne.
  rewrite lookup_read_header.
  destruct (header r !! "Content-Length") as [v|]; [done |]. intros _.
  cbn [fmap option_fmap option_map mbind option_bind id].
  case_decide as Hp; [by rewrite Hp | by apply bool_decide_pack].
Qed.

(** C6. When the Content-Length of every record of the input archive that
    has one is the length of its payload, the same holds of every record of
    the output archive, whether the run ends normally or with an
    exception. *)
Theorem output_content_length_consistent warc_input :
  Forall content_length_ok warc_input ->
  Forall content_length_ok (out_archive (process warc_input)).
Proof.
  intros Hin. unfold process.
  destruct warc_input as [|info_record records]; [by constructor |].
  apply Forall_cons in Hin as [Hinfo Hrecords].
  destruct (process_info info_record) as [info'|x] eqn:Hi;
    [| by constructor].
  destruct (process_records _ records) as [st err] eqn:Hrun.
  assert (Forall content_length_ok (warc_output st)) as Hout.
  { eapply process_records_content_length_ok; [done | done |]. simpl.
    apply Forall_singleton. by eapply process_info_content_length_ok. }
  by destruct err.
Qed.

(** ** The log *)

Lemma audit_entry_mono (idx idx' : gmap string entry) r line :
  (forall k e, idx !! k = Some e -> idx' !! k = Some e) ->
  audit_entry idx r = Some line -> audit_entry idx' r = Some line.
Proof.
  unfold audit_entry. intros Hsub.
  destruct (record_key r) as [k|]; [| done].
  destruct (idx !! k) as [e|] eqn:He; [| done].
  by rewrite (Hsub _ _ He).
Qed.

(** What a turn adds to the output and to the log. *)
Lemma step_audit st r st' :
  step st r st' ->
  exists rout,
    warc_output st' = warc_output st ++ [rout] /\
    ((rewritten (r, rout) /\
      exists line, dedup_log st' = dedup_log st ++ [line] /\
        audit_entry (hashes st') r = Some line) \/
     (~ rewritten (r, rout) /\ dedup_log st' = dedup_log st)).
Proof.
  destruct 1 as [Ht | k Ht Hk He | k e Ht Hk He Hd
                | k oID oDate oURL bd dID dURL dDate Ht Hk He Hd Hbd HdID
                    HdURL HdDate];
    eexists; (split; [reflexivity |]); simpl.
  - right. split; [| done]. unfold rewritten. simpl.
    rewrite bool_decide_eq_false_2 by done. by intros [].
  - right. split; [| done]. unfold rewritten. simpl.
    rewrite (bool_decide_eq_false_2 (record_type r = Some (VStr "revisit")))
      by congruence.
    rewrite andb_false_r. by intros [].
  - right. split; [| done]. unfold rewritten. simpl.
    rewrite (bool_decide_eq_false_2 (record_type r = Some (VStr "revisit")))
      by congruence.
    rewrite andb_false_r. by intros [].
  - left. split.
    + unfold rewritten. simpl. rewrite bool_decide_eq_true_2 by done.
      rewrite bool_decide_eq_true_2; [done |]. lookup_assigned.
    + eexists. split; [reflexivity |].
      unfold audit_entry. rewrite Hk, He, !get_read_header.
      by rewrite HdID, HdURL, HdDate.
Qed.

(** What a turn that raises has added to the log: nothing, or, when it is
    the write that raises, the line of the record. *)
Lemma raises_audit st r x st' :
  raises st r x st' ->
  (x <> TypeError /\ dedup_log st' = dedup_log st) \/
  (x = TypeError /\
   exists line, audit_entry (hashes st) r = Some line /\
     dedup_log st' = dedup_log st ++ [line]).
Proof.
  destruct 1 as [x Ht Hk | k e f Ht Hk He Hd Hf | k e Ht Hk He Hd Hf Hnone].
  - left. split; [| done]. by destruct (record_key_Raise _ _ Hk) as [-> | ->].
  - by left.
  - right. split; [done |]. eexists. split; [| reflexivity].
    unfold audit_entry. by rewrite Hk, He, !get_read_header.
Qed.

(** C7, as the code has it. Over a run of the loop the lines added to the
    log are, in the order of the archive, the lines of the responses that
    were written as revisit records, each made of the record id, target URI
    and date of the duplicate and of those the index holds for its digest,
    which are those of the first record with the digest. A run that ends
    without an exception, or with one other than a TypeError, has added
    these lines and no other. A run that ends with a TypeError has added one
    line more, that of the record whose write raised, which is not in the
    output. *)
Theorem audit_entries_follow_revisits rs : forall st st' err,
  process_records st rs = (st', err) ->
  exists outs entries,
    warc_output st' = warc_output st ++ outs /\
    length entries =
      length (filter (fun p => Is_true (rewritten p)) (zip rs outs)) /\
    Forall2 (fun line p => audit_entry (hashes st') p.1 = Some line)
      entries (filter (fun p => Is_true (rewritten p)) (zip rs outs)) /\
    (err <> Some TypeError -> dedup_log st' = dedup_log st ++ entries) /\
    (err = Some TypeError ->
     exists r line,
       rs !! length outs = Some r /\
       audit_entry (hashes st') r = Some line /\
       dedup_log st' = dedup_log st ++ entries ++ [line]).
Proof.
  induction rs as [|r rs IH]; intros st st' err Hrun.
  - injection Hrun as <- <-. exists [], []. rewrite !app_nil_r.
    repeat split; [constructor | done].
  - apply process_records_cons_inv in Hrun
      as [(st1 & Hstep & Hrun) | (x & -> & Hraise)].
    + pose proof (fun k e => process_records_hashes_mono _ _ _ _ k e Hrun)
        as Hmono.
      apply IH in Hrun as (outs & entries & Hout & Hlen & Hall & Hlog & Htype).
      apply step_audit in Hstep
        as (rout & Hout1 & [[Hrw (line & Hlog1 & Hline)] | [Hrw Hlog1]]).
      * exists (rout :: outs), (line :: entries).
        rewrite Hout, Hout1, <- !app_assoc. cbn [zip zip_with].
        rewrite filter_cons_True by done. cbn [length app].
        split; [done |]. split; [by f_equal |]. split.
        { constructor; [| done]. eapply audit_entry_mono; [| done].
          intros k e. apply Hmono. }
        split.
        -- intros Herr. by rewrite (Hlog Herr), Hlog1, <- app_assoc.
        -- intros Herr.
           destruct (Htype Herr) as (r' & line' & Hr' & Hl' & Hlog').
           exists r', line'. split; [done |]. split; [done |].
           by rewrite Hlog', Hlog1, <- !app_assoc.
      * exists (rout :: outs), entries.
        rewrite Hout, Hout1, <- !app_assoc. cbn [zip zip_with].
        rewrite filter_cons_False by done. cbn [length app].
        split; [done |]. split; [done |]. split; [done |]. split.
        -- intros Herr. by rewrite (Hlog Herr), Hlog1.
        -- intros Herr.
           destruct (Htype Herr) as (r' & line' & Hr' & Hl' & Hlog').
           exists r', line'. split; [done |]. split; [done |].
           by rewrite Hlog', Hlog1.
    + exists [], []. rewrite app_nil_r. cbn [zip zip_with length].
      pose proof Hraise as (Hh & Hout & _)%raises_state.
      split; [done |]. split; [done |]. split; [constructor |].
      apply raises_audit in Hraise
        as [[Hx Hlog] | (-> & line & Hline & Hlog)].
      * split; [by rewrite app_nil_r | congruence].
      * split; [done |]. intros _. exists r, line.
        by rewrite Hh.
Qed.

Lemma log_line_text dID dURL dDate oID oURL oDate :
  log_line dID dURL dDate oID oURL oDate =
  log_text dID dURL dDate oID oURL oDate +:+ CRLF.
Proof. unfold log_line, log_text. by rewrite !append_assoc. Qed.

Lemma step_log_texts st r st' texts :
  step st r st' ->
  dedup_log st = map (fun t => t +:+ CRLF) texts ->
  Forall is_log_text texts ->
  exists texts',
    dedup_log st' = map (fun t => t +:+ CRLF) texts' /\
    Forall is_log_text texts'.
Proof.
  intros Hstep Hlog Htexts.
  destruct Hstep as [| | | k oID oDate oURL bd dID dURL dDate]; simpl; eauto.
  exists (texts ++ [log_text (Some dID) (Some dURL) (Some dDate) (Some oID)
                      (Some oURL) (Some oDate)]).
  split.
  - by rewrite map_app, Hlog, log_line_text.
  - apply Forall_app. split; [done |]. apply Forall_singleton.
    by repeat eexists.
Qed.

Lemma process_records_log_texts rs : forall st st' texts,
  process_records st rs = (st', None) ->
  dedup_log st = map (fun t => t +:+ CRLF) texts ->
  Forall is_log_text texts ->
  exists texts',
    dedup_log st' = map (fun t => t +:+ CRLF) texts' /\
    Forall is_log_text texts'.
Proof.
  induction rs as [|r rs IH]; intros st st' texts Hrun Hlog Htexts.
  - injection Hrun as <-. eauto.
  - apply process_records_cons_inv in Hrun
      as [(st1 & Hstep & Hrun) | (x & [=] & _)].
    destruct (step_log_texts _ _ _ _ Hstep Hlog Htexts)
      as (texts1 & Hlog1 & Htexts1).
    by eapply IH.
Qed.

(** Lines that end in a line end, joined by line ends: two line ends
    between one text and the next, one after the last. *)
Lemma join_terminated texts :
  join CRLF (map (fun t => t +:+ CRLF) texts) =
  join (CRLF +:+ CRLF) texts +:+
  match texts with [] => "" | _ :: _ => CRLF end.
Proof.
  induction texts as [|t [|t' texts] IH]; [done | done |].
  change (join CRLF (map (fun t => t +:+ CRLF) (t :: t' :: texts)))
    with ((t +:+ CRLF) +:+ CRLF +:+
          join CRLF (map (fun t => t +:+ CRLF) (t' :: texts))).
  rewrite IH.
  change (join (CRLF +:+ CRLF) (t :: t' :: texts))
    with (t +:+ (CRLF +:+ CRLF) +:+ join (CRLF +:+ CRLF) (t' :: texts)).
  by rewrite !append_assoc.
Qed.

(** C8, as the code has it. After a run that ends normally the log file is
    the lines of the log joined by line ends. Every line already ends in a
    line end, so in the file the text of one entry and the text of the next
    are two line ends apart, an empty line between them, and one line end
    follows the last. *)
Theorem log_file_joins_terminated_entries info_record records info' st :
  process_info info_record = Ok info' ->
  process_records (mkState ∅ [] [info']) records = (st, None) ->
  exists texts,
    dedup_log st = map (fun t => t +:+ CRLF) texts /\
    Forall is_log_text texts /\
    out_log (process (info_record :: records))
      = Some (join CRLF (dedup_log st)) /\
    join CRLF (dedup_log st) =
      join (CRLF +:+ CRLF) texts +:+
      match texts with [] => "" | _ :: _ => CRLF end.
Proof.
  intros Hinfo Hrun.
  destruct (process_records_log_texts _ _ _ [] Hrun)
    as (texts & Hlog & Htexts); [done | done |].
  exists texts. split; [done |]. split; [done |]. split.
  - unfold process. by rewrite Hinfo, Hrun.
  - rewrite Hlog. apply join_terminated.
Qed.

(** ** The first record *)

(** C9, as the code has it. The first record of an archive, carrying a
    WARC-Block-Digest, is the first record of the output: its WARC-Filename
    is the name of the output archive, its WARC-Block-Digest is gone, its
    payload is the one read, and the fields that neither [process] nor the
    record constructor sets are as they were. *)
Theorem info_record_renamed info_record records :
  is_Some (header info_record !! "WARC-Block-Digest") ->
  exists info' rest,
    out_archive (process (info_record :: records)) = info' :: rest /\
    header info' !! "WARC-Filename" =
      Some (VStr (warc_file_base +:+ "-deduplicated.warc.gz")) /\
    header info' !! "WARC-Block-Digest" = None /\
    payload info' = payload info_record /\
    (forall f,
       f ∉ ["WARC-Filename"; "WARC-Block-Digest"; "Content-Length";
            "WARC-Payload-Digest"] ->
       header info' !! f = header info_record !! f).
Proof.
  intros Hbd.
  destruct (process_info info_record) as [info'|x] eqn:Hinfo.
  2:{ pose proof (proj2 (process_info_Ok info_record _) (conj Hbd eq_refl)).
      congruence. }
  assert (exists rest,
            out_archive (process (info_record :: records)) = info' :: rest)
    as [rest Hout].
  { unfold process. rewrite Hinfo.
    destruct (process_records _ records) as [st err] eqn:Hrun.
    apply process_records_output in Hrun as [outs Houts]. simpl in Houts.
    exists outs. by destruct err. }
  exists info', rest. split; [done |].
  rewrite !(process_info_lookup _ _ _ Hinfo).
  split; [| split; [| split]].
  - rewrite init_defaults_other by string_ne.
    rewrite lookup_delete_ne by string_ne. by rewrite lookup_insert_eq.
  - rewrite init_defaults_other by string_ne. by rewrite lookup_delete_eq.
  - by apply process_info_Ok in Hinfo as [_ ->].
  - intros f Hf. rewrite (process_info_lookup _ _ _ Hinfo).
    rewrite init_defaults_other by (intros ->; apply Hf; in_list).
    rewrite lookup_delete_ne by (intros <-; apply Hf; in_list).
    rewrite lookup_insert_ne by (intros <-; apply Hf; in_list).
    rewrite lookup_read_header. by destruct (header info_record !! f).
Qed.

(** ** Exceptions of a turn *)

(** X1. A turn of the loop raises in three ways only, all on a response.
    The digest has no key (it is missing, or has no colon). Or the record
    is a duplicate whose rebuilt header block does not announce an empty
    body and which lacks one of WARC-Block-Digest, WARC-Record-ID,
    WARC-Target-URI and WARC-Date; the KeyError names the first of these
    that is missing. Or it is such a duplicate with these four fields, and
    the index holds [None] for the record id, the date or the target URI of
    the first occurrence; then writing the record raises a TypeError.
    Other records, first occurrences with a key and duplicates with an
    empty body never raise. *)
Theorem process_record_raises st r x :
  process_record st r = Raise x <->
  record_type r = Some (VStr "response") /\
  (record_key r = Raise x \/
   exists k e,
     record_key r = Ok k /\ hashes st !! k = Some e /\
     declares_empty_body (rebuilt_payload (payload r)) = false /\
     ((exists f,
         first_missing (header r) revisit_reads = Some f /\ x = KeyError f) \/
      (first_missing (header r) revisit_reads = None /\
       (e.1.1 = None \/ e.1.2 = None \/ e.2 = None) /\
       x = TypeError))).
Proof.
  rewrite process_record_raises_iff. split.
  - intros [st' [x0 Ht Hk | k e f Ht Hk He Hd Hf
                | k e Ht Hk He Hd Hf Hnone]];
      (split; [done |]); [by left | right; exists k, e ..];
      (split; [done |]); (split; [done |]); (split; [done |]);
      [left; eauto | by right].
  - intros [Ht [Hk | (k & e & Hk & He & Hd
                      & [(f & Hf & ->) | (Hf & Hnone & ->)])]];
      eexists;
      [by apply raises_key | by eapply raises_missing
      | by eapply raises_write].
Qed.

(** ** Whole runs *)

(** X2. A run of the loop that ends in an exception has written the
    records of the turns before the failing one and nothing of the failing
    record, and its index is the index after these turns. Its log is the
    log after these turns too, unless the exception is the TypeError of a
    write: then the log holds one line more, that of the failing record. *)
Theorem aborted_turn_writes_nothing rs : forall st st' x,
  process_records st rs = (st', Some x) ->
  exists before r after st0,
    rs = before ++ r :: after /\
    process_records st before = (st0, None) /\
    process_record st0 r = Raise x /\
    warc_output st' = warc_output st0 /\
    hashes st' = hashes st0 /\
    (x <> TypeError -> dedup_log st' = dedup_log st0) /\
    (x = TypeError ->
     exists line,
       audit_entry (hashes st0) r = Some line /\
       dedup_log st' = dedup_log st0 ++ [line]).
Proof.
  induction rs as [|r rs IH]; intros st st' x Hrun; [done |].
  apply process_records_cons_inv in Hrun
    as [(st1 & Hstep & Hrun) | (x' & [= <-] & Hraise)].
  - apply IH in Hrun as (before & r' & after & st0 & -> & Hbefore & Hrest).
    exists (r :: before), r', after, st0. split; [done |]. split; [| done].
    by rewrite (proj2 (step_process_record _ _ _ Hstep)).
  - exists [], r, rs, st. split; [done |]. split; [done |]. split.
    { apply process_record_raises_iff. eauto. }
    pose proof (raises_state _ _ _ _ Hraise) as (Hh & Hout & _).
    split; [done |]. split; [done |].
    destruct (raises_audit _ _ _ _ Hraise)
      as [[Hx Hlog] | (-> & line & Hline & Hlog)]; split; eauto.
    + by intros ->.
    + done.
Qed.

Lemma process_records_length rs : forall st st' err,
  process_records st rs = (st', err) ->
  exists outs,
    warc_output st' = warc_output st ++ outs /\
    length outs <= length rs /\
    (err = None <-> length outs = length rs).
Proof.
  induction rs as [|r rs IH]; intros st st' err Hrun.
  - injection Hrun as <- <-. exists []. by rewrite app_nil_r.
  - apply process_records_cons_inv in Hrun
      as [(st1 & Hstep & Hrun) | (x & -> & Hraise)].
    + apply step_output in Hstep as [r' Hr'].
      apply IH in Hrun as (outs & Houts & Hle & Hiff). exists (r' :: outs).
      rewrite Houts, Hr', <- app_assoc. simpl.
      split; [done |]. split; [lia |]. rewrite Hiff. lia.
    + apply raises_state in Hraise as (_ & -> & _).
      exists []. rewrite app_nil_r. simpl.
      split; [done |]. split; [lia |]. split; [done | lia].
Qed.

(** X3. The output archive never has more records than the input. It has
    as many exactly when the run ends without exception (which needs an
    input that is not empty), and the log file is written exactly then. *)
Theorem output_as_long_as_input_iff_no_exception warc_input :
  length (out_archive (process warc_input)) <= length warc_input /\
  (out_raised (process warc_input) = None <->
   warc_input <> [] /\
   length (out_archive (process warc_input)) = length warc_input) /\
  (out_raised (process warc_input) = None <->
   is_Some (out_log (process warc_input))).
Proof.
  unfold process. destruct warc_input as [|info_record records]; simpl.
  { split; [lia |]. split.
    - split; [done | by intros [? _]].
    - split; [done | by intros [? [=]]]. }
  destruct (process_info info_record) as [info'|x]; simpl.
  2:{ split; [lia |]. split.
      - split; [done | intros [_ [=]]].
      - split; [done | by intros [? [=]]]. }
  destruct (process_records _ records) as [st err] eqn:Hrun.
  apply process_records_length in Hrun as (outs & Houts & Hle & Hiff).
  simpl in Houts.
  destruct err as [x|]; simpl; rewrite Houts; simpl.
  - split; [lia |]. split.
    + split; [done |]. intros [_ Hlen]. apply Hiff. lia.
    + split; [done | by intros [? [=]]].
  - split; [lia |]. split.
    + split; [| done]. intros _. split; [done |]. f_equal. by apply Hiff.
    + split; [by eauto | done].
Qed.

(** What a turn writes for the record it reads. *)
Lemma step_written st r st' :
  step st r st' ->
  exists rout,
    warc_output st' = warc_output st ++ [rout] /\
    (rout = r \/
     (rewritten (r, rout) /\
      payload rout = rebuilt_payload (payload r) /\
      forall f, f ∉ "WARC-Block-Digest" :: revisit_fields ->
        header rout !! f = header r !! f)).
Proof.
  destruct 1 as [Ht | k Ht Hk He | k e Ht Hk He Hd
                | k oID oDate oURL bd dID dURL dDate Ht Hk He Hd Hbd HdID
                    HdURL HdDate];
    eexists; (split; [reflexivity |]); [by left ..|].
  right. split; [| split; [done |]].
  - unfold rewritten. simpl. rewrite bool_decide_eq_true_2 by done.
    rewrite bool_decide_eq_true_2; [done |]. lookup_assigned.
  - apply revisit_written_other.
Qed.

(** X4. Record by record, the loop either writes the record it read or
    writes a response as a revisit record; in the second case the payload is
    the rebuilt header block and every field other than WARC-Block-Digest
    and the seven fields the rewrite assigns is as it was read. So record
    id, date, target URI and payload digest of a record are never changed,
    and records of other kinds are never changed at all. *)
Theorem loop_only_rewrites_to_revisit rs : forall st st' err,
  process_records st rs = (st', err) ->
  exists outs,
    warc_output st' = warc_output st ++ outs /\
    Forall (fun p : record * record =>
              p.2 = p.1 \/
              (rewritten p /\
               payload p.2 = rebuilt_payload (payload p.1) /\
               forall f, f ∉ "WARC-Block-Digest" :: revisit_fields ->
                 header p.2 !! f = header p.1 !! f))
      (zip rs outs).
Proof.
  induction rs as [|r rs IH]; intros st st' err Hrun.
  - injection Hrun as <- _. exists []. rewrite app_nil_r. by split.
  - apply process_records_cons_inv in Hrun
      as [(st1 & Hstep & Hrun) | (x & -> & Hraise)].
    + apply step_written in Hstep as (rout & Hout & Hr).
      apply IH in Hrun as (outs & Houts & Hall). exists (rout :: outs).
      rewrite Houts, Hout, <- app_assoc. split; [done |]. simpl.
      by constructor.
    + apply raises_state in Hraise as (_ & -> & _).
      exists []. rewrite app_nil_r. by split.
Qed.

Lemma response_key_Some r k :
  response_key r = Some k <->
  record_type r = Some (VStr "response") /\ record_key r = Ok k.
Proof.
  unfold response_key. case_decide; [| split; [done | by intros []]].
  destruct (record_key r); split; try done; try (by intros [= ->]);
    by intros [_ [= ->]].
Qed.

Lemma response_key_None_well_keyed r :
  well_keyed r -> response_key r = None ->
  record_type r <> Some (VStr "response").
Proof.
  unfold response_key. intros Hwk Hnone Ht.
  rewrite decide_True in Hnone by done.
  destruct (Hwk Ht) as [k Hk]. by rewrite Hk in Hnone.
Qed.

(** X5. When every response of a list of records has a digest key, the keys
    are pairwise different and none is in the index, the loop runs without
    exception, writes every record as it read it, adds nothing to the log,
    and leaves each of the keys in the index with the entry of its
    record. *)
Theorem no_duplicates_pass_through rs : forall st,
  Forall well_keyed rs ->
  NoDup (digest_keys rs) ->
  (forall k, k ∈ digest_keys rs -> hashes st !! k = None) ->
  exists st',
    process_records st rs = (st', None) /\
    warc_output st' = warc_output st ++ rs /\
    dedup_log st' = dedup_log st /\
    dom (hashes st') = dom (hashes st) ∪ list_to_set (digest_keys rs) /\
    (forall r k, r ∈ rs -> response_key r = Some k ->
       hashes st' !! k = Some (entry_of r)).
Proof.
  induction rs as [|r rs IH]; intros st Hwk Hnd Hfresh.
  - exists st. simpl. rewrite app_nil_r. repeat split; try done.
    + by rewrite union_empty_r_L.
    + by intros r k ?%elem_of_nil.
  - apply Forall_cons in Hwk as [Hr Hwk]. unfold digest_keys in *.
    simpl in Hnd, Hfresh.
    destruct (response_key r) as [k|] eqn:Hkey.
    + apply response_key_Some in Hkey as Hkey'. destruct Hkey' as [Ht Hk].
      apply NoDup_cons in Hnd as [Hnotin Hnd].
      assert (hashes st !! k = None) as Hnone
        by (apply Hfresh; by left).
      rewrite (proj2 (step_process_record _ _ _ (step_first st r k Ht Hk Hnone))).
      destruct (IH (mkState (<[k := entry_of r]> (hashes st))
                      (dedup_log st) (warc_output st ++ [r])) Hwk Hnd)
        as (st' & Hrun & Hout & Hlog & Hdom & Hentries).
      { intros k' Hk'. simpl. rewrite lookup_insert_ne by by intros ->.
        apply Hfresh. by right. }
      exists st'. simpl in Hout, Hlog, Hdom |- *.
      rewrite Hkey, Hout, Hdom, <- app_assoc.
      repeat split; try done.
      * rewrite dom_insert_L, list_to_set_cons. apply set_eq. intros y.
        rewrite !elem_of_union. tauto.
      * intros r' k' [-> | Hin]%elem_of_cons Hk'.
        -- rewrite Hkey in Hk'. injection Hk' as <-.
           eapply process_records_hashes_mono; [done |]. simpl.
           apply lookup_insert_eq.
        -- by eapply Hentries.
    + pose proof (response_key_None_well_keyed _ Hr Hkey) as Ht.
      rewrite (proj2 (step_process_record _ _ _ (step_other st r Ht))).
      destruct (IH (mkState (hashes st) (dedup_log st) (warc_output st ++ [r]))
                  Hwk Hnd Hfresh)
        as (st' & Hrun & Hout & Hlog & Hdom & Hentries).
      exists st'. simpl in Hout, Hlog, Hdom |- *.
      rewrite Hkey, Hout, <- app_assoc.
      repeat split; try done.
      intros r' k' [-> | Hin]%elem_of_cons Hk'; [congruence |].
      by eapply Hentries.
Qed.

(** X6. The loop is idempotent. Running it over what a run without
    exception wrote, from the index that run started from, writes the same
    records once more, adds nothing to the log, and ends with the same
    index: revisit records are not looked at again, and the responses left
    are found in the same order. *)
Theorem second_run_rewrites_nothing rs : forall st st' sa,
  process_records st rs = (st', None) ->
  hashes sa = hashes st ->
  exists outs,
    warc_output st' = warc_output st ++ outs /\
    process_records sa outs =
      (mkState (hashes st') (dedup_log sa) (warc_output sa ++ outs), None).
Proof.
  induction rs as [|r rs IH]; intros st st' sa Hrun Hsa.
  - injection Hrun as <-. exists []. rewrite !app_nil_r. simpl.
    rewrite <- Hsa. by destruct sa.
  - apply process_records_cons_inv in Hrun
      as [(st1 & Hstep & Hrun) | (x & [=] & _)].
    assert (exists rout sa1,
              warc_output st1 = warc_output st ++ [rout] /\
              step sa rout sa1 /\
              hashes sa1 = hashes st1 /\
              dedup_log sa1 = dedup_log sa /\
              warc_output sa1 = warc_output sa ++ [rout])
      as (rout & sa1 & Hout1 & Hstep2 & Hsa1 & Hlog1 & Hwo1).
    { destruct Hstep as [Ht | k Ht Hk He | k e Ht Hk He Hd
                        | k oID oDate oURL bd dID dURL dDate Ht Hk He Hd Hbd
                            HdID HdURL HdDate]; simpl.
      - exists r, (mkState (hashes sa) (dedup_log sa) (warc_output sa ++ [r])).
        split; [done |]. split; [by apply step_other | done].
      - exists r, (mkState (<[k := entry_of r]> (hashes sa)) (dedup_log sa)
                     (warc_output sa ++ [r])).
        split; [done |]. split.
        + apply step_first; [done | done |]. by rewrite Hsa.
        + simpl. by rewrite Hsa.
      - exists r, (mkState (hashes sa) (dedup_log sa) (warc_output sa ++ [r])).
        split; [done |]. split; [| done].
        apply (step_empty_body sa r k e); [done | done | by rewrite Hsa | done].
      - eexists.
        exists (mkState (hashes sa) (dedup_log sa)
                  (warc_output sa ++
                     [mkRecord
                        (revisit_written (header r)
                           (rebuilt_payload (payload r)) oID oDate oURL)
                        (rebuilt_payload (payload r))])).
        split; [done |]. split; [| done].
        apply step_other. unfold record_type.
        assert (revisit_written (header r) (rebuilt_payload (payload r))
                  oID oDate oURL !! "WARC-Type" = Some (VStr "revisit")) as Hty
          by lookup_assigned.
        cbn [header]. by rewrite Hty. }
    destruct (IH st1 st' sa1 Hrun Hsa1) as (outs & Houts & Hrun2).
    exists (rout :: outs). rewrite Houts, Hout1, <- app_assoc.
    split; [done |].
    rewrite (proj2 (step_process_record _ _ _ Hstep2)), Hrun2.
    by rewrite Hlog1, Hwo1, <- app_assoc.
Qed.

(** X7. The archive the pass writes cannot be given to the pass again: its
    first record has lost WARC-Block-Digest, so the second run raises
    KeyError at the deletion and writes nothing. *)
Theorem output_cannot_be_processed_again warc_input :
  out_archive (process warc_input) <> [] ->
  process (out_archive (process warc_input))
  = mkOutcome [] None (Some (KeyError "WARC-Block-Digest")).
Proof.
  intros Hne.
  assert (exists info' outs,
            out_archive (process warc_input) = info' :: outs /\
            header info' !! "WARC-Block-Digest" = None)
    as (info' & outs & -> & Hbd).
  { revert Hne. unfold process.
    destruct warc_input as [|info_record records]; [done |].
    destruct (process_info info_record) as [info'|x] eqn:Hinfo; [| done].
    intros _.
    destruct (process_records _ records) as [st err] eqn:Hrun.
    apply process_records_output in Hrun as [outs Houts]. simpl in Houts.
    exists info', outs. split; [by destruct err |].
    rewrite (process_info_lookup _ _ _ Hinfo).
    rewrite init_defaults_other by string_ne. by rewrite lookup_delete_eq. }
  unfold process, process_info, delitem.
  rewrite lookup_insert_ne by string_ne.
  by rewrite lookup_read_header, Hbd.
Qed.

(** X8. After a run of the loop without exception the digests in the index
    are those that were in it before and those of the responses read. *)
Theorem index_holds_digests_read rs : forall st st',
  process_records st rs = (st', None) ->
  dom (hashes st') = dom (hashes st) ∪ list_to_set (digest_keys rs).
Proof.
  induction rs as [|r rs IH]; intros st st' Hrun.
  - injection Hrun as <-. simpl. by rewrite union_empty_r_L.
  - apply process_records_cons_inv in Hrun
      as [(st1 & Hstep & Hrun) | (x & [=] & _)].
    rewrite (IH _ _ Hrun). unfold digest_keys. simpl.
    apply step_hashes in Hstep
      as [[-> Hin] | (k & Ht & Hk & Hnone & ->)].
    + destruct (response_key r) as [k|] eqn:Hkey; [| done].
      apply response_key_Some in Hkey as [Ht Hk].
      destruct (Hin k Ht Hk) as [e He]. rewrite list_to_set_cons.
      apply set_eq. intros y. rewrite !elem_of_union, elem_of_singleton.
      split; [tauto |]. intros [? | [-> | ?]]; [tauto | | tauto].
      left. apply elem_of_dom. eauto.
    + rewrite (proj2 (response_key_Some r k)) by done.
      rewrite dom_insert_L, list_to_set_cons. apply set_eq. intros y.
      rewrite !elem_of_union. tauto.
Qed.

(** ** The header block of an HTTP response *)

(** X9. For an HTTP response whose header lines are not empty, have no CR
    or LF inside and no white space at their ends, followed by the empty
    line and any body, the rebuilt payload is the header block with its
    empty line and nothing of the body. With an empty body the rebuilt
    payload is the payload itself. *)
Theorem rebuilt_payload_is_header_block lines body :
  Forall header_line lines ->
  rebuilt_payload (http_response lines body) = http_response lines "".
Proof.
  intros Hlines. unfold rebuilt_payload.
  rewrite leading_headers_http by done.
  unfold http_response. by rewrite (append_nil_r CRLF).
Qed.

(** ** The test for an empty body *)

Lemma prefix_append (n s t : string) :
  String.prefix n s = true -> String.prefix n (s +:+ t) = true.
Proof.
  revert s. induction n as [|a n IH]; intros s.
  - intros _. by destruct (s +:+ t).
  - destruct s as [|b s]; [done |]. rewrite append_cons. cbn [String.prefix].
    destruct (ascii_dec a b); [apply IH | done].
Qed.

Lemma contains_append_r (n s t : string) :
  contains n s = true -> contains n (s +:+ t) = true.
Proof.
  induction s as [|b s IH].
  - destruct n as [|a n]; [| done]. intros _. by destruct ("" +:+ t).
  - change (contains n (String b s))
      with (String.prefix n (String b s) || contains n s).
    rewrite append_cons.
    change (contains n (String b (s +:+ t)))
      with (String.prefix n (String b (s +:+ t)) || contains n (s +:+ t)).
    intros [Hp | Hc]%orb_true_iff; apply orb_true_iff.
    + left. by apply (prefix_append n (String b s) t).
    + right. by apply IH.
Qed.

Lemma contains_append_l (n s t : string) :
  contains n t = true -> contains n (s +:+ t) = true.
Proof.
  intros Ht. induction s as [|b s IH]; [done |]. rewrite append_cons.
  change (contains n (String b (s +:+ t)))
    with (String.prefix n (String b (s +:+ t)) || contains n (s +:+ t)).
  rewrite IH. apply orb_true_r.
Qed.

Lemma contains_join n sep l lines :
  l ∈ lines -> contains n l = true -> contains n (join sep lines) = true.
Proof.
  intros Hin Hl. induction lines as [|x [|y lines] IH].
  - by apply elem_of_nil in Hin.
  - apply elem_of_cons in Hin as [-> | Hin]; [done |].
    by apply elem_of_nil in Hin.
  - rewrite join_cons_cons.
    apply elem_of_cons in Hin as [-> | Hin].
    + by apply contains_append_r.
    + apply contains_append_l, contains_append_l. by apply IH.
Qed.

(** X10. The test for an empty body looks for the text anywhere in the
    rebuilt block. For an HTTP response with header lines as in X9, a line
    that holds [Content-Length: 0] or [content-length: 0] anywhere, be it
    the tail of a longer field name or the head of a longer number, makes a
    duplicate pass as a response with an empty body. *)
Theorem empty_body_test_is_substring lines body l :
  Forall header_line lines ->
  l ∈ lines ->
  contains "Content-Length: 0" l = true \/
    contains "content-length: 0" l = true ->
  declares_empty_body (rebuilt_payload (http_response lines body)) = true.
Proof.
  intros Hlines Hin Hl. rewrite rebuilt_payload_is_header_block_aux by done.
  unfold declares_empty_body, http_response. apply orb_true_iff.
  destruct Hl as [Hl | Hl]; [left | right];
    by apply contains_append_r, (contains_join _ _ l).
Qed.

End Deduplicate.

(** ** CheckIP *)

Section CheckIP.

Variable gethostbyname : string -> option string.
Variable format_set : gset string -> string.

Lemma resolve_all_Returned hosts : forall ip_set ips,
  Forall2 (fun host ip => gethostbyname host = Some ip) hosts ips ->
  resolve_all gethostbyname hosts ip_set
  = Returned (list_to_set ips ∪ ip_set).
Proof.
  induction hosts as [|host hosts IH]; intros ip_set ips Hall.
  - apply Forall2_nil_inv_l in Hall as ->. simpl.
    by rewrite union_empty_l_L.
  - apply Forall2_cons_inv_l in Hall as (ip & ips' & Hip & Hall & ->).
    simpl. rewrite Hip, (IH _ _ Hall). f_equal.
    apply set_eq. intros y. rewrite !elem_of_union. tauto.
Qed.

Lemma resolve_all_inv hosts : forall ip_set ip_set',
  resolve_all gethostbyname hosts ip_set = Returned ip_set' ->
  exists ips, Forall2 (fun host ip => gethostbyname host = Some ip) hosts ips.
Proof.
  induction hosts as [|host hosts IH]; intros ip_set ip_set' Hres.
  - exists []. constructor.
  - simpl in Hres. destruct (gethostbyname host) as [ip|] eqn:Hip; [| done].
    apply IH in Hres as [ips Hips]. exists (ip :: ips). by constructor.
Qed.

Lemma size_list_to_set_le (l : list string) :
  size (list_to_set l : gset string) <= length l.
Proof.
  induction l as [|x l IH].
  - by rewrite list_to_set_nil, size_empty.
  - rewrite list_to_set_cons, size_union_alt, size_singleton. simpl.
    pose proof (subseteq_size (list_to_set l ∖ {[x]}) (list_to_set l : gset string)
                  ltac:(apply subseteq_difference_l; done)).
    lia.
Qed.

Lemma size_list_to_set_NoDup (l : list string) :
  size (list_to_set l : gset string) = length l <-> NoDup l.
Proof.
  split; [| apply size_list_to_set].
  induction l as [|x l IH]; [constructor |].
  rewrite list_to_set_cons. simpl length. intros Hsize.
  pose proof (size_list_to_set_le l) as Hle.
  destruct (decide (x ∈ l)) as [Hin | Hnotin].
  - assert (({[x]} ∪ list_to_set l : gset string) = list_to_set l) as Heq.
    { apply set_eq. intros y.
      rewrite elem_of_union, elem_of_singleton, elem_of_list_to_set.
      split; [intros [-> | ?]; done | tauto]. }
    rewrite Heq in Hsize. lia.
  - rewrite size_union, size_singleton in Hsize.
    + constructor; [done |]. apply IH. lia.
    + apply disjoint_singleton_l. by rewrite elem_of_list_to_set.
Qed.

(** X11. At a counter that is not positive the check is made, and it passes
    exactly when the six host names resolve to six addresses that differ
    from each other. A check that passes sets the counter to 10; one that
    raises, at a lookup or for addresses that coincide, leaves the counter
    as it was, so the next item is checked again. *)
Theorem CheckIP_passes_iff_six_addresses _counter :
  (_counter <= 0)%Z ->
  (check_raised (CheckIP_process gethostbyname format_set _counter) = None
   <-> exists ips,
         Forall2 (fun host ip => gethostbyname host = Some ip)
           checked_hosts ips /\
         NoDup ips) /\
  counter_after (CheckIP_process gethostbyname format_set _counter)
  = match check_raised (CheckIP_process gethostbyname format_set _counter)
    with
    | None => 10%Z
    | Some _ => _counter
    end.
Proof.
  intros Hc. unfold CheckIP_process. rewrite decide_True by done.
  destruct (resolve_all gethostbyname checked_hosts ∅) as [ip_set|e] eqn:Hres.
  - destruct (resolve_all_inv _ _ _ Hres) as [ips Hips].
    rewrite (resolve_all_Returned _ _ _ Hips) in Hres.
    injection Hres as <-. rewrite union_empty_r_L.
    pose proof (Forall2_length _ _ _ Hips) as Hlen.
    change (length checked_hosts) with 6 in Hlen.
    case_decide as Hsize; simpl; (split; [| done]).
    + split; [done |]. intros (ips' & Hips' & Hnd).
      assert (ips' = ips) as ->.
      { clear -Hips Hips'. revert ips' Hips'.
        induction Hips as [|host ip hosts ips Hip _ IH]; intros ips' Hips'.
        - by apply Forall2_nil_inv_l in Hips'.
        - apply Forall2_cons_inv_l in Hips' as (ip' & ips'' & Hip' & Hall & ->).
          f_equal; [congruence | by apply IH]. }
      apply size_list_to_set_NoDup in Hnd. lia.
    + split; [| done]. intros _. exists ips. split; [done |].
      apply size_list_to_set_NoDup. lia.
  - simpl. split; [| done]. split; [done |]. intros (ips & Hips & _).
    by rewrite (resolve_all_Returned _ _ _ Hips) in Hres.
Qed.

Lemma CheckIP_calls_positive n : forall c : Z,
  (Z.of_nat n <= c)%Z ->
  CheckIP_calls gethostbyname format_set n c
  = mkChecked (c - Z.of_nat n) [] None.
Proof.
  induction n as [|n IH]; intros c Hc.
  - simpl. f_equal. lia.
  - cbn [CheckIP_calls]. unfold CheckIP_process.
    rewrite decide_False by lia. simpl. rewrite IH by lia. simpl.
    f_equal. lia.
Qed.

(** X12. The check is made for one item in eleven. After a check that
    passed, the next ten calls make no lookup, log nothing and raise
    nothing, whatever the resolver would answer, and they bring the counter
    down to 0, where the next call checks again. *)
Theorem CheckIP_checks_one_item_in_eleven _counter n :
  (_counter <= 0)%Z ->
  check_raised (CheckIP_process gethostbyname format_set _counter) = None ->
  n <= 10 ->
  CheckIP_calls gethostbyname format_set (S n) _counter
  = mkChecked (10 - Z.of_nat n) ["Checking IP address."] None.
Proof.
  intros Hc Hpass Hn. cbn [CheckIP_calls]. rewrite Hpass.
  assert (counter_after (CheckIP_process gethostbyname format_set _counter)
          = 10%Z /\
          logged (CheckIP_process gethostbyname format_set _counter)
          = ["Checking IP address."]) as [-> ->].
  { revert Hpass. unfold CheckIP_process. rewrite decide_True by done.
    destruct (resolve_all _ _ _); [| done]. by case_decide. }
  rewrite CheckIP_calls_positive by lia. done.
Qed.

End CheckIP.

(** ** WgetArgs *)

Section WgetArgs.

Variable w : world.

Lemma contains_colon_after (t v : string) :
  contains ":" (t +:+ ":" +:+ v) = true.
Proof.
  apply contains_append_l. change (":" +:+ v) with (String ":" v).
  by rewrite contains_colon_cons.
Qed.

Lemma split1_first_colon (t v : string) :
  contains ":" t = false -> split1 ":" (t +:+ ":" +:+ v) = [t; v].
Proof. intros Ht. unfold split1. by rewrite split1_from_first_colon. Qed.

(** X13. An item whose type is not exactly [images] is never fetched. The
    assertion on the type tests whether the type occurs inside the text
    [images], so a type such as [image], [ages] or the empty type passes it
    and is then refused as an unknown item; any other type fails the
    assertion. In both cases no request is made, and the item already holds
    the type and the value that were split off its name. *)
Theorem realize_fetches_for_images_only item0 item_type item_value :
  item0 !! "item_name" = Some (item_type +:+ ":" +:+ item_value) ->
  contains ":" item_type = false ->
  item_type <> "images" ->
  (WgetArgs_realize w item0).2
  = Raised (if contains item_type "images" then Exception "Unknown item"
            else AssertionError) /\
  n_requests (WgetArgs_realize w item0).1 = 0 /\
  item (WgetArgs_realize w item0).1
  = <["item_value" := item_value]> (<["item_type" := item_type]> item0).
Proof.
  intros Hname Hty Hne. unfold WgetArgs_realize. cbn [item].
  rewrite Hname, contains_colon_after, split1_first_colon by done.
  cbn [negb]. destruct (contains item_type "images"); cbn [negb]; [| done].
  by rewrite decide_False by done.
Qed.

(** *** Asking for a page *)

Lemma fetch_teapots uid k : forall tries_left s,
  (forall i, i < k ->
     status_code (requests_get w (n_requests s + i) (user_page uid)) = 418) ->
  exists s_k,
    fetch_photo_user w (k + tries_left) uid s
    = fetch_photo_user w tries_left uid s_k /\
    wget_args s_k = wget_args s /\
    item s_k = item s /\
    n_requests s_k = n_requests s + k /\
    n_randoms s_k = n_randoms s + k /\
    length (stdout s_k) = length (stdout s) + k.
Proof.
  induction k as [|k IH]; intros tries_left s Hall.
  - exists s. repeat split; lia.
  - cbn [Nat.add fetch_photo_user].
    pose proof (Hall 0 ltac:(lia)) as H0. rewrite Nat.add_0_r in H0.
    rewrite decide_True by done.
    match goal with
    | |- exists _, fetch_photo_user _ _ _ ?s1 = _ /\ _ =>
        destruct (IH tries_left s1)
          as (s_k & Heq & Hargs & Hitem & Hreq & Hrand & Hout)
    end.
    { intros i Hi. cbn. rewrite <- Nat.add_succ_r. apply Hall. lia. }
    exists s_k. rewrite Heq, Hargs, Hitem, Hreq, Hrand, Hout. cbn.
    rewrite length_app. cbn. repeat split; lia.
Qed.

(** X14. A page is asked for at most fifteen times. As long as the answer
    is status 418 the request is repeated; the first other answer decides:
    status 404, or status 200 with a text that is not empty, is returned,
    anything else raises. After fifteen answers with status 418 the loop
    gives up and raises. The arguments and the item are not touched, and
    one random number is drawn for each 418. *)
Theorem fetch_repeats_on_418_up_to_fifteen uid s k :
  k <= 15 ->
  (forall i, i < k ->
     status_code (requests_get w (n_requests s + i) (user_page uid)) = 418) ->
  (k < 15 ->
   status_code (requests_get w (n_requests s + k) (user_page uid)) <> 418) ->
  exists s',
    fetch_photo_user w 15 uid s
    = (s',
       if decide (k < 15) then
         let r := requests_get w (n_requests s + k) (user_page uid) in
         if (bool_decide (String.length (text r) = 0)
             || bool_decide (status_code r <> 200))
            && negb (bool_decide (status_code r = 404))
         then Raised (Exception "Something went wrong... ABORTING")
         else Returned r
       else Raised (Exception "Failed to brew coffee with flickr... :(")) /\
    n_requests s' = n_requests s + k + (if decide (k < 15) then 1 else 0) /\
    n_randoms s' = n_randoms s + k /\
    wget_args s' = wget_args s /\
    item s' = item s.
Proof.
  intros Hk Hteapots Hother.
  destruct (fetch_teapots uid k (15 - k) s Hteapots)
    as (s_k & Heq & Hargs & Hitem & Hreq & Hrand & _).
  replace (k + (15 - k)) with 15 in Heq by lia. rewrite Heq.
  case_decide as Hlt.
  - destruct (15 - k) as [|tries_left] eqn:Hleft; [lia |].
    cbn [fetch_photo_user]. rewrite Hreq.
    rewrite decide_False by auto.
    destruct (_ && _); eexists; (split; [reflexivity |]); cbn;
      rewrite ?Hargs, ?Hitem, ?Hreq, ?Hrand; repeat split; lia.
  - replace (15 - k) with 0 by lia. cbn [fetch_photo_user].
    exists s_k. rewrite Hargs, Hitem, Hreq, Hrand. repeat split; lia.
Qed.

(** *** The arguments and the item *)

Lemma fetch_keeps uid tries_left : forall s s' r,
  fetch_photo_user w tries_left uid s = (s', r) ->
  wget_args s' = wget_args s /\ item s' = item s.
Proof.
  induction tries_left as [|tries_left IH]; intros s s' r Hfetch.
  - by injection Hfetch as <- _.
  - cbn [fetch_photo_user] in Hfetch. case_decide.
    + by apply IH in Hfetch as [-> ->].
    + destruct (_ && _); by injection Hfetch as <- _.
Qed.

(** What the body of the loop over the images does when it does not raise:
    nothing for a page that is not there, else fifteen more arguments and a
    longer [item_value]. *)
Lemma add_image_grows image s s' :
  add_image w image s = (s', None) ->
  (wget_args s' = wget_args s /\ item s' = item s) \/
  (exists photo_id photo_user_id photo_user v,
     wget_args s'
     = wget_args s ++ photo_args image photo_id photo_user_id photo_user /\
     item s !! "item_value" = Some v /\
     item s'
     = <["item_value" := v +:+ "," +:+ photo_user +:+ "/" +:+ photo_id]>
         (item s)).
Proof.
  unfold add_image.
  destruct (split "/" image !! 0) as [photo_user_id|]; [| done].
  destruct (fetch_photo_user w 15 photo_user_id s) as [s1 [r|e]] eqn:Hfetch;
    [| done].
  apply fetch_keeps in Hfetch as [Hargs Hitem].
  case_decide; [intros [= <-]; by left |].
  destruct (og_url_user w (text r)) as [photo_user|]; [| done].
  destruct (split "/" image !! 1) as [photo_id|]; [| done].
  cbn [item print wget_args].
  destruct (item s1 !! "item_value") as [v|] eqn:Hv; [| done].
  intros [= <-]. right. exists photo_id, photo_user_id, photo_user, v.
  cbn. by rewrite Hargs, <- Hitem.
Qed.

Lemma add_images_grow images : forall s s',
  add_images w images s = (s', None) ->
  exists found added suffix,
    found <= length images /\
    wget_args s' = wget_args s ++ added /\
    length added = 15 * found /\
    (forall v, item s !! "item_value" = Some v ->
       item s' !! "item_value" = Some (v +:+ suffix)) /\
    (forall k, k <> "item_value" -> item s' !! k = item s !! k).
Proof.
  induction images as [|image images IH]; intros s s' Hrun.
  - injection Hrun as <-. exists 0, [], "".
    rewrite app_nil_r. repeat split; try done.
    intros v ->. by rewrite append_nil_r.
  - cbn [add_images] in Hrun.
    destruct (add_image w image s) as [s1 [e|]] eqn:Himage; [done |].
    apply IH in Hrun
      as (found & added & suffix & Hle & Hargs & Hlen & Hvalue & Hother).
    apply add_image_grows in Himage
      as [[Hargs1 Hitem1]
         | (photo_id & photo_user_id & photo_user & v & Hargs1 & Hv & Hitem1)].
    + exists found, added, suffix. rewrite Hargs, Hargs1.
      rewrite Hitem1 in Hvalue, Hother. repeat split; try done.
      simpl. lia.
    + exists (S found),
        (photo_args image photo_id photo_user_id photo_user ++ added),
        (("," +:+ photo_user +:+ "/" +:+ photo_id) +:+ suffix).
      rewrite Hargs, Hargs1, <- app_assoc.
      repeat split; try done.
      * simpl. lia.
      * rewrite length_app, Hlen. simpl. lia.
      * intros v' Hv'. rewrite Hv in Hv'. injection Hv' as <-.
        rewrite <- append_assoc. apply Hvalue.
        rewrite Hitem1. apply lookup_insert_eq.
      * intros k Hk. rewrite (Hother k Hk), Hitem1.
        by apply lookup_insert_ne.
Qed.

Lemma split1_from_two sep s : forall cur a b,
  split1_from sep cur s = [a; b] -> cur +:+ s = a +:+ String sep b.
Proof.
  induction s as [|c s IH]; intros cur a b Hsplit; [done |].
  cbn [split1_from] in Hsplit.
  destruct (Ascii.eqb c sep) eqn:Hc.
  - apply Ascii.eqb_eq in Hc as ->. by injection Hsplit as <- <-.
  - apply IH in Hsplit. by rewrite append_assoc in Hsplit.
Qed.

Lemma realize_args_length args it : forall l,
  realize_args args it = Returned l -> length l = length args.
Proof.
  induction args as [|a args IH]; intros l Hl.
  - by injection Hl as <-.
  - cbn [realize_args] in Hl.
    destruct (match a with Str s => _ | ItemInterpolation t => _ end);
      [| done].
    destruct (realize_args args it) as [rest|]; [| done].
    injection Hl as <-. simpl. f_equal. by apply IH.
Qed.

(** X15. When [realize] returns, the item was an [images] item, and what it
    returns is the 37 arguments it starts with, then fifteen arguments for
    each photo whose page was found, at most one photo for each entry of
    the item value, then the two arguments for the bind address if there is
    one. The item holds the type [images], its value is the value of the
    name with some text added behind it, and the other fields are as they
    came. *)
Theorem realize_returns_fifteen_arguments_a_photo item0 s' args :
  WgetArgs_realize w item0 = (s', Returned args) ->
  exists item_value found suffix,
    item0 !! "item_name" = Some ("images:" +:+ item_value) /\
    found <= length (split "," item_value) /\
    length args
    = 37 + 15 * found
      + match bind_address w with Some _ => 2 | None => 0 end /\
    item s' !! "item_type" = Some "images" /\
    item s' !! "item_value" = Some (item_value +:+ suffix) /\
    (forall k, k <> "item_type" -> k <> "item_value" ->
       item s' !! k = item0 !! k).
Proof.
  unfold WgetArgs_realize. cbn [item wget_args stdout n_requests n_randoms].
  destruct (item0 !! "item_name") as [item_name|] eqn:Hname; [| done].
  destruct (contains ":" item_name); cbn [negb]; [| done].
  destruct (split1 ":" item_name) as [|item_type [|item_value [|? ?]]]
    eqn:Hsplit; try done.
  destruct (contains item_type "images"); cbn [negb]; [| done].
  case_decide as Hty; [subst item_type | done].
  apply split1_from_two in Hsplit. change ("" +:+ item_name) with item_name in Hsplit.
  subst item_name.
  destruct (add_images w (split "," item_value) _) as [s1 [e|]] eqn:Hrun;
    [done |].
  apply add_images_grow in Hrun
    as (found & added & suffix & Hle & Hargs & Hlen & Hvalue & Hother).
  cbn [item wget_args] in Hargs, Hvalue, Hother.
  intros [= <- Hargs'].
  apply realize_args_length in Hargs'.
  exists item_value, found, suffix. split; [done |]. split; [done |].
  destruct (bind_address w) as [address|];
    cbn [item wget_args print] in Hargs' |- *;
    rewrite Hargs', Hargs, ?length_app, Hlen; cbn [length];
    (split; [change (length (base_args w)) with 37; lia |]);
    (split; [rewrite Hother by done;
             rewrite lookup_insert_ne by done; apply lookup_insert_eq |]);
    (split; [apply Hvalue, lookup_insert_eq |]);
    intros k Hk1 Hk2; rewrite Hother by done;
    by rewrite !lookup_insert_ne by done.
Qed.

Lemma split_from_head sep s : forall cur,
  exists x l, split_from sep cur s = x :: l.
Proof.
  induction s as [|c s IH]; intros cur; cbn [split_from]; [by eauto |].
  destruct (Ascii.eqb c sep); [by eauto | apply IH].
Qed.

Lemma fetch_not_found tries_left uid s :
  (forall n url, status_code (requests_get w n url) = 404) ->
  fetch_photo_user w (S tries_left) uid s
  = (mkRealizing (wget_args s) (item s) (stdout s) (S (n_requests s))
       (n_randoms s),
     Returned (requests_get w (n_requests s) (user_page uid))).
Proof.
  intros H404. cbn [fetch_photo_user].
  rewrite decide_False by (rewrite H404; lia).
  rewrite (bool_decide_eq_true_2 (_ = 404)) by done.
  by rewrite andb_false_r.
Qed.

Lemma add_images_not_found images : forall s,
  (forall n url, status_code (requests_get w n url) = 404) ->
  add_images w images s
  = (mkRealizing (wget_args s) (item s) (stdout s)
       (n_requests s + length images) (n_randoms s), None).
Proof.
  induction images as [|image images IH]; intros s H404.
  - cbn. rewrite Nat.add_0_r. by destruct s.
  - cbn [add_images]. unfold add_image.
    destruct (split_from_head "/" image "") as (photo_user_id & l & Hsplit).
    unfold split. rewrite Hsplit. cbn [lookup list_lookup].
    rewrite (fetch_not_found 14) by done.
    rewrite decide_True by done.
    rewrite IH by done. cbn [wget_args item stdout n_requests n_randoms length].
    do 2 f_equal. lia.
Qed.

(** X16. When every page answers 404, [realize] asks once for each entry
    of the item value, adds no argument and leaves the value as it was
    split off the name: with an item that holds [item_dir] and
    [warc_file_base] it returns the 37 arguments it started with and those
    for the bind address, and so gives wget no URL at all. *)
Theorem realize_without_pages_gives_no_url item0 item_value :
  item0 !! "item_name" = Some ("images:" +:+ item_value) ->
  (forall n url, status_code (requests_get w n url) = 404) ->
  let item1 :=
    <["item_value" := item_value]> (<["item_type" := "images"]> item0) in
  let args :=
    base_args w ++
    match bind_address w with
    | Some address => [Str "--bind-address"; Str address]
    | None => []
    end in
  (WgetArgs_realize w item0).2 = realize_args args item1 /\
  wget_args (WgetArgs_realize w item0).1 = args /\
  item (WgetArgs_realize w item0).1 = item1 /\
  n_requests (WgetArgs_realize w item0).1 = length (split "," item_value).
Proof.
  intros Hname H404 item1 args. unfold WgetArgs_realize. cbn [item].
  rewrite Hname.
  change ("images:" +:+ item_value) with ("images" +:+ ":" +:+ item_value).
  rewrite (contains_colon_after "images" item_value).
  rewrite (split1_first_colon "images" item_value eq_refl).
  cbn [negb]. change (contains "images" "images") with true. cbn [negb].
  rewrite decide_True by done.
  rewrite add_images_not_found by done.
  cbn [wget_args item stdout n_requests n_randoms].
  subst args item1.
  destruct (bind_address w) as [address|]; cbn; rewrite ?app_nil_r; done.
Qed.

(** *** Keys of the item *)

Ltac in_list_of_keys :=
  apply (proj1 (bool_decide_eq_true _)); vm_compute; reflexivity.
Ltac not_among_keys :=
  change (?x ∈ ?l -> False) with (x ∉ l);
  apply (proj1 (bool_decide_eq_false _)); vm_compute; reflexivity.

Lemma fetch_raises uid tries_left : forall s s' e,
  fetch_photo_user w tries_left uid s = (s', Raised e) ->
  exists msg, e = Exception msg.
Proof.
  induction tries_left as [|tries_left IH]; intros s s' e Hfetch.
  - injection Hfetch as _ <-. eauto.
  - cbn [fetch_photo_user] in Hfetch. case_decide; [by eapply IH |].
    destruct (_ && _); [| done]. injection Hfetch as _ <-. eauto.
Qed.

Lemma add_image_raises image s s' e k :
  add_image w image s = (s', Some e) ->
  is_Some (item s !! "item_value") ->
  e <> Builtin (KeyError k).
Proof.
  unfold add_image. intros Hrun [v Hv].
  destruct (split "/" image !! 0) as [photo_user_id|];
    [| by injection Hrun as _ <-].
  destruct (fetch_photo_user w 15 photo_user_id s) as [s1 [r|e1]] eqn:Hfetch.
  - apply fetch_keeps in Hfetch as [_ Hitem].
    case_decide; [done |].
    destruct (og_url_user w (text r)); [| by injection Hrun as _ <-].
    destruct (split "/" image !! 1); [| by injection Hrun as _ <-].
    cbn [item print] in Hrun. by rewrite Hitem, Hv in Hrun.
  - apply fetch_raises in Hfetch as [msg ->]. by injection Hrun as _ <-.
Qed.

Lemma add_images_raise images : forall s s' e k,
  add_images w images s = (s', Some e) ->
  is_Some (item s !! "item_value") ->
  e <> Builtin (KeyError k).
Proof.
  induction images as [|image images IH]; intros s s' e k Hrun Hvalue;
    [done |].
  cbn [add_images] in Hrun.
  destruct (add_image w image s) as [s1 [e1|]] eqn:Himage.
  - injection Hrun as _ <-. by eapply add_image_raises.
  - eapply IH; [done |].
    apply add_image_grows in Himage
      as [[_ ->] | (? & ? & ? & ? & _ & _ & ->)]; [done |].
    rewrite lookup_insert_eq. eauto.
Qed.

Lemma add_images_add_strings images : forall s s',
  add_images w images s = (s', None) ->
  exists added,
    wget_args s' = wget_args s ++ added /\
    Forall (fun a => exists x, a = Str x) added.
Proof.
  induction images as [|image images IH]; intros s s' Hrun.
  - injection Hrun as <-. exists []. by rewrite app_nil_r.
  - cbn [add_images] in Hrun.
    destruct (add_image w image s) as [s1 [e|]] eqn:Himage; [done |].
    apply IH in Hrun as (added & Hargs & Hstr).
    apply add_image_grows in Himage
      as [[Hargs1 _] | (pid & uid & user & v & Hargs1 & _ & _)].
    + exists added. by rewrite Hargs, Hargs1.
    + exists (photo_args image pid uid user ++ added).
      rewrite Hargs, Hargs1, <- app_assoc. split; [done |].
      apply Forall_app. split; [| done].
      unfold photo_args. repeat (constructor; [by eauto |]). constructor.
Qed.

Lemma interpolate_raises template it e :
  interpolate template it = Raised e ->
  exists k, Key k ∈ template /\ it !! k = None /\ e = Builtin (KeyError k).
Proof.
  induction template as [|[t|k] template IH]; [done | |];
    cbn [interpolate].
  - destruct (interpolate template it); [done |]. intros [= <-].
    destruct IH as (k & Hin & Hk & ->); [done |].
    exists k. split; [by right | done].
  - destruct (it !! k) eqn:Hk.
    + destruct (interpolate template it); [done |]. intros [= <-].
      destruct IH as (k' & Hin & Hk' & ->); [done |].
      exists k'. split; [by right | done].
    + intros [= <-]. exists k. split; [by left | done].
Qed.

Lemma realize_args_raises args it e :
  realize_args args it = Raised e ->
  exists template k,
    ItemInterpolation template ∈ args /\ Key k ∈ template /\
    it !! k = None /\ e = Builtin (KeyError k).
Proof.
  induction args as [|a args IH]; [done |]. cbn [realize_args].
  destruct a as [x|template].
  - destruct (realize_args args it); [done |]. intros [= <-].
    destruct IH as (t & k & Hin & Hk & Hnone & ->); [done |].
    exists t, k. split; [by right | done].
  - destruct (interpolate template it) eqn:Hint.
    + destruct (realize_args args it); [done |]. intros [= <-].
      destruct IH as (t & k & Hin & Hk & Hnone & ->); [done |].
      exists t, k. split; [by right | done].
    + intros [= <-].
      apply interpolate_raises in Hint as (k & Hk & Hnone & ->).
      exists template, k. split; [by left | done].
Qed.

Lemma base_args_keys template k :
  ItemInterpolation template ∈ base_args w -> Key k ∈ template ->
  k ∈ ["item_dir"; "warc_file_base"; "item_name"].
Proof.
  unfold base_args. intros Hin Hk.
  repeat (apply elem_of_cons in Hin as [Hin | Hin];
          [first [ discriminate Hin
                 | injection Hin as ->;
                   repeat (apply elem_of_cons in Hk as [Hk | Hk];
                           [first [ discriminate Hk
                                  | injection Hk as ->; in_list_of_keys ] |]);
                   by apply elem_of_nil in Hk ] |]).
  by apply elem_of_nil in Hin.
Qed.

Lemma realize_has_its_keys (it : gmap string string) k :
  is_Some (it !! "item_name") ->
  is_Some (it !! "item_dir") ->
  is_Some (it !! "warc_file_base") ->
  (WgetArgs_realize w it).2 <> Raised (Builtin (KeyError k)).
Proof.
  intros [item_name Hname] Hdir Hbase. unfold WgetArgs_realize.
  cbn [item wget_args stdout n_requests n_randoms]. rewrite Hname.
  destruct (contains ":" item_name); cbn [negb]; [| done].
  destruct (split1 ":" item_name) as [|item_type [|item_value [|? ?]]];
    try done.
  destruct (contains item_type "images"); cbn [negb]; [| done].
  case_decide as Hty; [| done].
  destruct (add_images w (split "," item_value) _) as [s1 [e|]] eqn:Hrun.
  - cbn. intros [= ->]. revert Hrun. intros Hrun.
    eapply (add_images_raise _ _ _ _ k) in Hrun; [done |].
    cbn. rewrite lookup_insert_eq. eauto.
  - pose proof (add_images_grow _ _ _ Hrun)
      as (_ & _ & _ & _ & _ & _ & _ & Hother).
    apply add_images_add_strings in Hrun as (added & Hargs & Hstr).
    cbn [item wget_args] in Hargs, Hother.
    assert (forall args' : list wget_arg,
              Forall (fun a => exists x, a = Str x) args' ->
              realize_args (base_args w ++ added ++ args') (item s1)
              <> Raised (Builtin (KeyError k))) as Hok.
    { intros args' Hstr' Hraised.
      apply realize_args_raises in Hraised
        as (template & k' & Hin & Hk' & Hnone & [= ->]).
      apply elem_of_app in Hin as [Hin | Hin].
      - pose proof (base_args_keys _ _ Hin Hk') as Hkey.
        assert (is_Some (item s1 !! k')) as [? ?]; [| congruence].
        rewrite Hother by (intros ->; revert Hkey; not_among_keys).
        rewrite !lookup_insert_ne by (intros <-; revert Hkey; not_among_keys).
        repeat (apply elem_of_cons in Hkey as [-> | Hkey]; [by eauto |]).
        by apply elem_of_nil in Hkey.
      - assert (Forall (fun a => exists x, a = Str x) (added ++ args'))
          as Hall by by apply Forall_app.
        rewrite Forall_forall in Hall.
        by destruct (Hall _ Hin) as [x [=]]. }
    destruct (bind_address w) as [address|]; cbn [item wget_args print snd].
    + rewrite Hargs, <- app_assoc. apply Hok.
      repeat (constructor; [by eauto |]). constructor.
    + rewrite Hargs. rewrite <- (app_nil_r added). by apply Hok.
Qed.

End WgetArgs.

(** ** From PrepareDirectories to MoveFiles *)

Section Pipeline.

Variable warc_prefix : string.
Variable sha1_hexdigest : string -> string.
Variable strftime : string.
Variable isdir : string -> bool.

Lemma PrepareDirectories_returns item0 item_name data_dir :
  item0 !! "item_name" = Some item_name ->
  item0 !! "data_dir" = Some data_dir ->
  let dirname := data_dir +:+ "/" +:+ sha1_hexdigest item_name in
  let base :=
    warc_prefix +:+ "-" +:+ sha1_hexdigest item_name +:+ "-" +:+ strftime in
  PrepareDirectories_process warc_prefix sha1_hexdigest strftime isdir item0
  = (<["warc_file_base" := base]> (<["item_dir" := dirname]> item0),
     (if isdir dirname then [rmtree dirname] else [])
     ++ [makedirs dirname; create (dirname +:+ "/" +:+ base +:+ ".warc.gz")],
     None).
Proof.
  intros Hname Hdata dirname base. unfold PrepareDirectories_process.
  rewrite Hname, Hdata. unfold item_warc_gz. cbn [interpolate].
  rewrite lookup_insert_ne by done. rewrite !lookup_insert_eq.
  by rewrite <- app_assoc.
Qed.

(** X17. After [PrepareDirectories.process] has returned, the item holds
    every key that [WgetArgs.realize] reads: whatever the network answers,
    [realize] does not raise a KeyError. *)
Theorem realize_after_PrepareDirectories_finds_its_keys
    (w : world) item0 item1 ops k :
  PrepareDirectories_process warc_prefix sha1_hexdigest strftime isdir item0
  = (item1, ops, None) ->
  (WgetArgs_realize w item1).2 <> Raised (Builtin (KeyError k)).
Proof.
  intros Hprep.
  destruct (item0 !! "item_name") as [item_name|] eqn:Hname;
    [| by unfold PrepareDirectories_process in Hprep; rewrite Hname in Hprep].
  destruct (item0 !! "data_dir") as [data_dir|] eqn:Hdata;
    [| by unfold PrepareDirectories_process in Hprep;
          rewrite Hname, Hdata in Hprep].
  rewrite (PrepareDirectories_returns _ _ _ Hname Hdata) in Hprep.
  injection Hprep as <- _. apply realize_has_its_keys.
  - rewrite !lookup_insert_ne by done. eauto.
  - rewrite lookup_insert_ne by done. rewrite lookup_insert_eq. eauto.
  - rewrite lookup_insert_eq. eauto.
Qed.


End Pipeline.

(** ** The theorems at the sample archives *)

Ltac by_evaluation := compute_done.

(** C1 as it is written fails where the rebuilt header block differs from
    the payload. The duplicate [sample_e2] announces an empty body and one
    of its header lines ends in a space, which [strip] removes. The record
    written is [sample_e2] as it was read: its payload is not the rebuilt
    block, and its Content-Length is not the length of the rebuilt block. *)
Lemma empty_body_duplicate_not_trimmed :
  record_type sample_e2 = Some (VStr "response") /\
  record_key sample_e2 = Ok "e" /\
  hashes (sample_state "e" sample_e1) !! "e" = Some (entry_of sample_e1) /\
  declares_empty_body (rebuilt_payload (payload sample_e2)) = true /\
  process_record sample_sha1 (sample_state "e" sample_e1) sample_e2
    = Ok (mkState (hashes (sample_state "e" sample_e1))
            (dedup_log (sample_state "e" sample_e1))
            (warc_output (sample_state "e" sample_e1) ++ [sample_e2])) /\
  payload sample_e2 ≠ rebuilt_payload (payload sample_e2) /\
  header sample_e2 !! "Content-Length" ≠
    Some (VStr (str (String.length (rebuilt_payload (payload sample_e2))))).
Proof. by_evaluation. Qed.

Lemma empty_body_duplicate_written_as_read_witness :
  record_type sample_e2 = Some (VStr "response") /\
  record_key sample_e2 = Ok "e" /\
  hashes (sample_state "e" sample_e1) !! "e" = Some (entry_of sample_e1) /\
  declares_empty_body (rebuilt_payload (payload sample_e2)) = true /\
  exists st',
    process_record sample_sha1 (sample_state "e" sample_e1) sample_e2
      = Ok st' /\
    warc_output st' = warc_output (sample_state "e" sample_e1) ++ [sample_e2] /\
    dedup_log st' = dedup_log (sample_state "e" sample_e1) /\
    hashes st' = hashes (sample_state "e" sample_e1).
Proof.
  assert (record_type sample_e2 = Some (VStr "response")) as Ht
    by by_evaluation.
  assert (record_key sample_e2 = Ok "e") as Hk by by_evaluation.
  assert (hashes (sample_state "e" sample_e1) !! "e"
          = Some (entry_of sample_e1)) as He by by_evaluation.
  assert (declares_empty_body (rebuilt_payload (payload sample_e2)) = true)
    as Hd by by_evaluation.
  repeat (split; [assumption |]).
  exact (empty_body_duplicate_written_as_read sample_sha1
           (sample_state "e" sample_e1) sample_e2 "e" (entry_of sample_e1)
           Ht Hk He Hd).
Defined.

(** C2 as it is written fails at an archive that holds a response without a
    WARC-Payload-Digest: the run ends with an AttributeError, only the first
    record has been written, and no log file is written. *)
Lemma response_without_digest_not_passed_through :
  record_type sample_no_digest = Some (VStr "response") /\
  header sample_no_digest !! "WARC-Payload-Digest" = None /\
  process "flickr" sample_sha1 [sample_info; sample_no_digest; sample_r2]
    = mkOutcome [sample_info_out] None (Some AttributeError).
Proof. by_evaluation. Qed.

Lemma response_without_digest_raises_witness :
  record_type sample_no_digest = Some (VStr "response") /\
  header sample_no_digest !! "WARC-Payload-Digest" = None /\
  process_record sample_sha1 sample_start sample_no_digest
    = Raise AttributeError /\
  process_records sample_sha1 sample_start [sample_no_digest; sample_r2]
    = (sample_start, Some AttributeError).
Proof.
  assert (record_type sample_no_digest = Some (VStr "response")) as Ht
    by by_evaluation.
  assert (header sample_no_digest !! "WARC-Payload-Digest" = None) as Hd
    by by_evaluation.
  repeat (split; [assumption |]).
  exact (response_without_digest_raises sample_sha1 sample_start
           sample_no_digest [sample_r2] Ht Hd).
Defined.

(** C3 as it is written fails at three archives. In the first the header
    block of the duplicate holds a field whose name ends in Content-Length,
    with the value 0; the duplicate announces a body of five bytes and has
    one, and it is written as it was read: it stays a response, nothing
    refers to the first record, and the log stays empty. In the second the
    duplicate has no WARC-Block-Digest: the deletion raises, and the
    duplicate is not written. In the third the first record has no
    WARC-Target-URI: the write of the duplicate raises, and the duplicate is
    not written. *)
Lemma duplicate_with_body_not_rewritten :
  (record_type sample_x1 = Some (VStr "response") /\
   record_type sample_x2 = Some (VStr "response") /\
   header sample_x1 !! "WARC-Payload-Digest" = Some (VStr "sha1:x") /\
   header sample_x2 !! "WARC-Payload-Digest" = Some (VStr "sha1:x") /\
   payload sample_x2 =
     http_response
       ["HTTP/1.1 200 OK"; "X-Content-Length: 0"; "Content-Length: 5"]
       "HELLO" /\
   process "flickr" sample_sha1 [sample_info; sample_x1; sample_x2]
     = mkOutcome [sample_info_out; sample_x1; sample_x2] (Some "") None /\
   record_type sample_x2 ≠ Some (VStr "revisit") /\
   header sample_x2 !! "WARC-Refers-To" = None) /\
  (header sample_d3 !! "WARC-Payload-Digest" = Some (VStr "sha1:abc") /\
   header sample_d3 !! "WARC-Block-Digest" = None /\
   payload sample_d3 = payload sample_r3 /\
   process "flickr" sample_sha1 [sample_info; sample_r1; sample_d3]
     = mkOutcome [sample_info_out; sample_r1] None
         (Some (KeyError "WARC-Block-Digest"))) /\
  (header sample_n1 !! "WARC-Payload-Digest" = Some (VStr "sha1:abc") /\
   header sample_n1 !! "WARC-Target-URI" = None /\
   process "flickr" sample_sha1 [sample_info; sample_n1; sample_r3]
     = mkOutcome [sample_info_out; sample_n1] None (Some TypeError)).
Proof. by_evaluation. Qed.

Lemma sample_hello_lines :
  Forall header_line ["HTTP/1.1 200 OK"; "Content-Length: 5"].
Proof.
  repeat (apply Forall_cons; split; [repeat split; by_evaluation |]).
  apply Forall_nil_2.
Defined.

Lemma duplicate_rewritten_as_revisit_witness :
  record_type sample_r1 = Some (VStr "response") /\
  record_key sample_r1 = Ok "abc" /\
  hashes sample_start !! "abc" = None /\
  header sample_r1 !! "WARC-Record-ID" = Some (VStr "<urn:uuid:1>") /\
  header sample_r1 !! "WARC-Date" = Some (VStr "2017-05-01T00:00:01Z") /\
  header sample_r1 !! "WARC-Target-URI"
    = Some (VStr "https://www.flickr.com/photos/1") /\
  process_records sample_sha1 sample_start [sample_r1; sample_r2]
    = (sample_seen, None) /\
  record_type sample_r3 = Some (VStr "response") /\
  record_key sample_r3 = Ok "abc" /\
  contains "Content-Length: 0" (rebuilt_payload (payload sample_r3)) = false /\
  contains "content-length: 0" (rebuilt_payload (payload sample_r3)) = false /\
  is_Some (header sample_r3 !! "WARC-Block-Digest") /\
  is_Some (header sample_r3 !! "WARC-Record-ID") /\
  is_Some (header sample_r3 !! "WARC-Target-URI") /\
  is_Some (header sample_r3 !! "WARC-Date") /\
  payload sample_r3
    = http_response ["HTTP/1.1 200 OK"; "Content-Length: 5"] "HELLO" /\
  Forall header_line ["HTTP/1.1 200 OK"; "Content-Length: 5"] /\
  exists outs st2 r2',
    warc_output sample_seen = warc_output sample_start ++ sample_r1 :: outs /\
    process_record sample_sha1 sample_seen sample_r3 = Ok st2 /\
    warc_output st2 = warc_output sample_seen ++ [r2'] /\
    payload r2' = rebuilt_payload (payload sample_r3) /\
    (forall lines body,
       payload sample_r3 = http_response lines body ->
       Forall header_line lines ->
       payload r2' = join CRLF lines +:+ CRLF +:+ CRLF) /\
    record_type r2' = Some (VStr "revisit") /\
    header r2' !! "Content-Length" =
      Some (VStr (str (String.length (payload r2')))) /\
    header r2' !! "WARC-Refers-To" = Some (VStr "<urn:uuid:1>") /\
    header r2' !! "WARC-Refers-To-Date"
      = Some (VStr "2017-05-01T00:00:01Z") /\
    header r2' !! "WARC-Refers-To-Target-URI"
      = Some (VStr "https://www.flickr.com/photos/1") /\
    header r2' !! "WARC-Truncated" = Some (VStr "length") /\
    header r2' !! "WARC-Profile" =
      Some (VStr
        "http://netpreserve.org/warc/1.0/revisit/identical-payload-digest") /\
    header r2' !! "WARC-Block-Digest" = None /\
    (forall f, f ∉ "WARC-Block-Digest" :: revisit_fields ->
       header r2' !! f = header sample_r3 !! f).
Proof.
  assert (record_type sample_r1 = Some (VStr "response")) as Ht1
    by by_evaluation.
  assert (record_key sample_r1 = Ok "abc") as Hk1 by by_evaluation.
  assert (hashes sample_start !! "abc" = None) as Hnone by by_evaluation.
  assert (header sample_r1 !! "WARC-Record-ID" = Some (VStr "<urn:uuid:1>"))
    as HoID by by_evaluation.
  assert (header sample_r1 !! "WARC-Date"
          = Some (VStr "2017-05-01T00:00:01Z")) as HoDate by by_evaluation.
  assert (header sample_r1 !! "WARC-Target-URI"
          = Some (VStr "https://www.flickr.com/photos/1")) as HoURL
    by by_evaluation.
  assert (process_records sample_sha1 sample_start [sample_r1; sample_r2]
          = (sample_seen, None)) as Hrun by by_evaluation.
  assert (record_type sample_r3 = Some (VStr "response")) as Ht2
    by by_evaluation.
  assert (record_key sample_r3 = Ok "abc") as Hk2 by by_evaluation.
  assert (contains "Content-Length: 0" (rebuilt_payload (payload sample_r3))
          = false) as Hd1 by by_evaluation.
  assert (contains "content-length: 0" (rebuilt_payload (payload sample_r3))
          = false) as Hd2 by by_evaluation.
  assert (is_Some (header sample_r3 !! "WARC-Block-Digest")) as Hbd
    by by_evaluation.
  assert (is_Some (header sample_r3 !! "WARC-Record-ID")) as HdID
    by by_evaluation.
  assert (is_Some (header sample_r3 !! "WARC-Target-URI")) as HdURL
    by by_evaluation.
  assert (is_Some (header sample_r3 !! "WARC-Date")) as HdDate
    by by_evaluation.
  assert (payload sample_r3
          = http_response ["HTTP/1.1 200 OK"; "Content-Length: 5"] "HELLO")
    as Hp by reflexivity.
  repeat (split; [assumption |]).
  split; [exact sample_hello_lines |].
  exact (duplicate_rewritten_as_revisit sample_sha1 sample_start sample_r1
           [sample_r2] sample_seen sample_r3 "abc" (VStr "<urn:uuid:1>")
           (VStr "2017-05-01T00:00:01Z")
           (VStr "https://www.flickr.com/photos/1")
           Ht1 Hk1 Hnone HoID HoDate HoURL Hrun Ht2 Hk2 Hd1 Hd2 Hbd HdID
           HdURL HdDate).
Defined.

(** C4, at an input where the code leaves the claim. A duplicate whose
    header block announces the empty body as [CONTENT-LENGTH: 0] does not
    pass the test of the source, which knows two spellings only: the record
    is written as a revisit record and a line is added to the log. *)
Lemma capitals_empty_body_duplicate_rewritten :
  record_type sample_u2 = Some (VStr "response") /\
  record_key sample_u2 = Ok "u" /\
  hashes (sample_state "u" sample_u1) !! "u" = Some (entry_of sample_u1) /\
  declares_empty_body (rebuilt_payload (payload sample_u2)) = false /\
  process_record sample_sha1 (sample_state "u" sample_u1) sample_u2
    = Ok (mkState (hashes (sample_state "u" sample_u1))
            [log_line (Some (VStr "<urn:uuid:2>"))
               (Some (VStr "https://www.flickr.com/photos/2"))
               (Some (VStr "2017-05-01T00:00:02Z"))
               (Some (VStr "<urn:uuid:1>"))
               (Some (VStr "https://www.flickr.com/photos/1"))
               (Some (VStr "2017-05-01T00:00:01Z"))]
            [sample_info; sample_u1; sample_u2_revisit]) /\
  record_type sample_u2_revisit = Some (VStr "revisit").
Proof. by_evaluation. Qed.

Lemma hashes_first_occurrence_wins_witness :
  process_records sample_sha1 sample_start [sample_r1; sample_r2; sample_r3]
    = (sample_done, None) /\
  (forall k e, hashes sample_start !! k = Some e ->
     hashes sample_done !! k = Some e) /\
  (forall k e, hashes sample_start !! k = None ->
     hashes sample_done !! k = Some e ->
     exists pre r post,
       [sample_r1; sample_r2; sample_r3] = pre ++ r :: post /\
       record_type r = Some (VStr "response") /\
       record_key r = Ok k /\
       e = entry_of r /\
       Forall (fun r0 => ~ (record_type r0 = Some (VStr "response") /\
                            record_key r0 = Ok k)) pre).
Proof.
  assert (process_records sample_sha1 sample_start
            [sample_r1; sample_r2; sample_r3] = (sample_done, None)) as Hrun
    by by_evaluation.
  split; [assumption |].
  exact (hashes_first_occurrence_wins sample_sha1
           [sample_r1; sample_r2; sample_r3] sample_start sample_done None
           Hrun).
Defined.

Lemma output_content_length_consistent_witness :
  Forall content_length_ok sample_archive /\
  Forall content_length_ok
    (out_archive (process "flickr" sample_sha1 sample_archive)).
Proof.
  assert (Forall content_length_ok sample_archive) as Hin by by_evaluation.
  split; [assumption |].
  exact (output_content_length_consistent "flickr" sample_sha1
           sample_archive Hin).
Defined.

(** C7 as it is written fails at an archive whose first response has no
    WARC-Target-URI and is followed by a duplicate: the line of the
    duplicate goes to the log, then writing the duplicate as a revisit
    record raises, because its WARC-Refers-To-Target-URI is [None]. The
    run ends with one line in the log and no revisit record in the output,
    and the log file is not written. *)
Lemma audit_entry_without_revisit_record :
  header sample_n1 !! "WARC-Target-URI" = None /\
  process_records sample_sha1 sample_start [sample_n1; sample_r3]
    = (sample_raised, Some TypeError) /\
  dedup_log sample_raised = [sample_text3_None +:+ CRLF] /\
  warc_output sample_raised = [sample_info_out; sample_n1] /\
  length (dedup_log sample_raised) = 1 /\
  length (filter (fun r => bool_decide (record_type r = Some (VStr "revisit")))
            (warc_output sample_raised)) = 0 /\
  process "flickr" sample_sha1 [sample_info; sample_n1; sample_r3]
    = mkOutcome [sample_info_out; sample_n1] None (Some TypeError).
Proof. by_evaluation. Qed.

Lemma audit_entries_follow_revisits_witness :
  process_records sample_sha1 sample_start
    [sample_r1; sample_r2; sample_r3; sample_r4] = (sample_all_done, None) /\
  exists outs entries,
    warc_output sample_all_done = warc_output sample_start ++ outs /\
    length entries =
      length (filter (fun p => Is_true (rewritten p))
                (zip [sample_r1; sample_r2; sample_r3; sample_r4] outs)) /\
    Forall2
      (fun line p => audit_entry (hashes sample_all_done) p.1 = Some line)
      entries
      (filter (fun p => Is_true (rewritten p))
         (zip [sample_r1; sample_r2; sample_r3; sample_r4] outs)) /\
    (None <> Some TypeError ->
     dedup_log sample_all_done = dedup_log sample_start ++ entries) /\
    (None = Some TypeError ->
     exists r line,
       [sample_r1; sample_r2; sample_r3; sample_r4] !! length outs = Some r /\
       audit_entry (hashes sample_all_done) r = Some line /\
       dedup_log sample_all_done
       = dedup_log sample_start ++ entries ++ [line]).
Proof.
  assert (process_records sample_sha1 sample_start
            [sample_r1; sample_r2; sample_r3; sample_r4]
          = (sample_all_done, None)) as Hrun by by_evaluation.
  split; [assumption |].
  exact (audit_entries_follow_revisits sample_sha1
           [sample_r1; sample_r2; sample_r3; sample_r4] sample_start
           sample_all_done None Hrun).
Defined.

(** C8 as it is written fails at an archive with two duplicates: in the log
    file the two entries are two line ends apart, so there is an empty line
    between them, and the file is not the two texts joined by one line
    end. *)
Lemma log_file_has_blank_line :
  out_raised (process "flickr" sample_sha1 sample_archive) = None /\
  out_log (process "flickr" sample_sha1 sample_archive)
    = Some (sample_text3 +:+ CRLF +:+ CRLF +:+ sample_text4 +:+ CRLF) /\
  out_log (process "flickr" sample_sha1 sample_archive)
    ≠ Some (join CRLF [sample_text3; sample_text4]).
Proof. by_evaluation. Qed.

Lemma log_file_joins_terminated_entries_witness :
  process_info "flickr" sample_sha1 sample_info = Ok sample_info_out /\
  process_records sample_sha1 (mkState ∅ [] [sample_info_out])
    [sample_r1; sample_r2; sample_r3; sample_r4] = (sample_all_done, None) /\
  exists texts,
    dedup_log sample_all_done = map (fun t => t +:+ CRLF) texts /\
    Forall is_log_text texts /\
    out_log (process "flickr" sample_sha1
               (sample_info :: [sample_r1; sample_r2; sample_r3; sample_r4]))
      = Some (join CRLF (dedup_log sample_all_done)) /\
    join CRLF (dedup_log sample_all_done) =
      join (CRLF +:+ CRLF) texts +:+
      match texts with [] => "" | _ :: _ => CRLF end.
Proof.
  assert (process_info "flickr" sample_sha1 sample_info = Ok sample_info_out)
    as Hinfo by by_evaluation.
  assert (process_records sample_sha1 (mkState ∅ [] [sample_info_out])
            [sample_r1; sample_r2; sample_r3; sample_r4]
          = (sample_all_done, None)) as Hrun by by_evaluation.
  repeat (split; [assumption |]).
  exact (log_file_joins_terminated_entries "flickr" sample_sha1 sample_info
           [sample_r1; sample_r2; sample_r3; sample_r4] sample_info_out
           sample_all_done Hinfo Hrun).
Defined.

(** C9 as it is written fails at an archive whose first record has no
    WARC-Block-Digest: the deletion raises, and nothing is written. *)
Lemma info_record_without_block_digest_not_written :
  header sample_info_bare !! "WARC-Block-Digest" = None /\
  process "flickr" sample_sha1 [sample_info_bare; sample_r1]
    = mkOutcome [] None (Some (KeyError "WARC-Block-Digest")).
Proof. by_evaluation. Qed.

Lemma info_record_renamed_witness :
  is_Some (header sample_info !! "WARC-Block-Digest") /\
  exists info' rest,
    out_archive (process "flickr" sample_sha1 (sample_info :: [sample_r1]))
      = info' :: rest /\
    header info' !! "WARC-Filename" =
      Some (VStr ("flickr" +:+ "-deduplicated.warc.gz")) /\
    header info' !! "WARC-Block-Digest" = None /\
    payload info' = payload sample_info /\
    (forall f,
       f ∉ ["WARC-Filename"; "WARC-Block-Digest"; "Content-Length";
            "WARC-Payload-Digest"] ->
       header info' !! f = header sample_info !! f).
Proof.
  assert (is_Some (header sample_info !! "WARC-Block-Digest")) as Hbd
    by by_evaluation.
  split; [assumption |].
  exact (info_record_renamed "flickr" sample_sha1 sample_info [sample_r1]
           Hbd).
Defined.

Lemma digest_key_after_first_colon_witness :
  record_type sample_r1 = Some (VStr "response") /\
  header sample_r1 !! "WARC-Payload-Digest" = Some (VStr "sha1:abc") /\
  record_key sample_r1 = Ok "abc" /\
  record_type sample_bare_digest = Some (VStr "response") /\
  header sample_bare_digest !! "WARC-Payload-Digest" = Some (VStr "abc") /\
  process_records sample_sha1 sample_start [sample_bare_digest; sample_r2]
    = (sample_start, Some IndexError).
Proof.
  assert (record_type sample_r1 = Some (VStr "response")) as Ht
    by by_evaluation.
  assert (header sample_r1 !! "WARC-Payload-Digest" = Some (VStr "sha1:abc"))
    as Hd by by_evaluation.
  assert (record_type sample_bare_digest = Some (VStr "response")) as Ht'
    by by_evaluation.
  assert (header sample_bare_digest !! "WARC-Payload-Digest"
          = Some (VStr "abc")) as Hd' by by_evaluation.
  split; [assumption |]. split; [assumption |]. split.
  { apply (proj1 (digest_key_after_first_colon sample_sha1 sample_start
                    sample_r1 "sha1:abc" [] Ht Hd) "sha1" "abc");
      by_evaluation. }
  split; [assumption |]. split; [assumption |].
  apply (proj2 (digest_key_after_first_colon sample_sha1 sample_start
                  sample_bare_digest "abc" [sample_r2] Ht' Hd')).
  by_evaluation.
Defined.

(** ** The further theorems at the samples *)

Lemma aborted_turn_writes_nothing_witness :
  process_records sample_sha1 sample_start [sample_n1; sample_r3; sample_r2]
    = (sample_raised, Some TypeError) /\
  exists before r after st0,
    [sample_n1; sample_r3; sample_r2] = before ++ r :: after /\
    process_records sample_sha1 sample_start before = (st0, None) /\
    process_record sample_sha1 st0 r = Raise TypeError /\
    warc_output sample_raised = warc_output st0 /\
    hashes sample_raised = hashes st0 /\
    (TypeError <> TypeError -> dedup_log sample_raised = dedup_log st0) /\
    (TypeError = TypeError ->
     exists line,
       audit_entry (hashes st0) r = Some line /\
       dedup_log sample_raised = dedup_log st0 ++ [line]).
Proof.
  assert (process_records sample_sha1 sample_start
            [sample_n1; sample_r3; sample_r2]
          = (sample_raised, Some TypeError)) as Hrun by by_evaluation.
  split; [assumption |].
  exact (aborted_turn_writes_nothing sample_sha1
           [sample_n1; sample_r3; sample_r2] sample_start sample_raised
           TypeError Hrun).
Defined.

Lemma loop_only_rewrites_to_revisit_witness :
  process_records sample_sha1 sample_start [sample_r1; sample_r2; sample_r3]
    = (sample_done, None) /\
  exists outs,
    warc_output sample_done = warc_output sample_start ++ outs /\
    Forall (fun p : record * record =>
              p.2 = p.1 \/
              (rewritten p /\
               payload p.2 = rebuilt_payload (payload p.1) /\
               forall f, f ∉ "WARC-Block-Digest" :: revisit_fields ->
                 header p.2 !! f = header p.1 !! f))
      (zip [sample_r1; sample_r2; sample_r3] outs).
Proof.
  assert (process_records sample_sha1 sample_start
            [sample_r1; sample_r2; sample_r3] = (sample_done, None)) as Hrun
    by by_evaluation.
  split; [assumption |].
  exact (loop_only_rewrites_to_revisit sample_sha1
           [sample_r1; sample_r2; sample_r3] sample_start sample_done None
           Hrun).
Defined.

Lemma sample_well_keyed :
  Forall well_keyed [sample_r1; sample_r2].
Proof.
  apply Forall_cons. split; [intros _; exists "abc"; by_evaluation |].
  apply Forall_cons. split; [intros _; exists "xyz"; by_evaluation |].
  apply Forall_nil_2.
Defined.

Lemma no_duplicates_pass_through_witness :
  Forall well_keyed [sample_r1; sample_r2] /\
  NoDup (digest_keys [sample_r1; sample_r2]) /\
  (forall k, k ∈ digest_keys [sample_r1; sample_r2] ->
     hashes sample_start !! k = None) /\
  exists st',
    process_records sample_sha1 sample_start [sample_r1; sample_r2]
      = (st', None) /\
    warc_output st' = warc_output sample_start ++ [sample_r1; sample_r2] /\
    dedup_log st' = dedup_log sample_start /\
    dom (hashes st')
      = dom (hashes sample_start)
        ∪ list_to_set (digest_keys [sample_r1; sample_r2]) /\
    (forall r k, r ∈ [sample_r1; sample_r2] -> response_key r = Some k ->
       hashes st' !! k = Some (entry_of r)).
Proof.
  assert (NoDup (digest_keys [sample_r1; sample_r2])) as Hnd
    by by_evaluation.
  assert (forall k, k ∈ digest_keys [sample_r1; sample_r2] ->
            hashes sample_start !! k = None) as Hfresh
    by (intros k _; apply lookup_empty).
  split; [exact sample_well_keyed |]. split; [assumption |].
  split; [assumption |].
  exact (no_duplicates_pass_through sample_sha1 [sample_r1; sample_r2]
           sample_start sample_well_keyed Hnd Hfresh).
Defined.

Lemma second_run_rewrites_nothing_witness :
  process_records sample_sha1 sample_start [sample_r1; sample_r2; sample_r3]
    = (sample_done, None) /\
  hashes sample_start = hashes sample_start /\
  exists outs,
    warc_output sample_done = warc_output sample_start ++ outs /\
    process_records sample_sha1 sample_start outs
    = (mkState (hashes sample_done) (dedup_log sample_start)
         (warc_output sample_start ++ outs), None).
Proof.
  assert (process_records sample_sha1 sample_start
            [sample_r1; sample_r2; sample_r3] = (sample_done, None)) as Hrun
    by by_evaluation.
  split; [assumption |]. split; [reflexivity |].
  exact (second_run_rewrites_nothing sample_sha1
           [sample_r1; sample_r2; sample_r3] sample_start sample_done
           sample_start Hrun eq_refl).
Defined.

Lemma output_cannot_be_processed_again_witness :
  out_archive (process "flickr" sample_sha1 sample_archive) <> [] /\
  process "flickr" sample_sha1
    (out_archive (process "flickr" sample_sha1 sample_archive))
  = mkOutcome [] None (Some (KeyError "WARC-Block-Digest")).
Proof.
  assert (out_archive (process "flickr" sample_sha1 sample_archive) <> [])
    as Hne by by_evaluation.
  split; [assumption |].
  exact (output_cannot_be_processed_again "flickr" sample_sha1
           sample_archive Hne).
Defined.

Lemma index_holds_digests_read_witness :
  process_records sample_sha1 sample_start [sample_r1; sample_r2; sample_r3]
    = (sample_done, None) /\
  dom (hashes sample_done)
  = dom (hashes sample_start)
    ∪ list_to_set (digest_keys [sample_r1; sample_r2; sample_r3]).
Proof.
  assert (process_records sample_sha1 sample_start
            [sample_r1; sample_r2; sample_r3] = (sample_done, None)) as Hrun
    by by_evaluation.
  split; [assumption |].
  exact (index_holds_digests_read sample_sha1
           [sample_r1; sample_r2; sample_r3] sample_start sample_done Hrun).
Defined.

Lemma sample_header_lines : Forall header_line sample_x_lines.
Proof.
  repeat (apply Forall_cons; split; [repeat split; by_evaluation |]).
  apply Forall_nil_2.
Defined.

Lemma rebuilt_payload_is_header_block_witness :
  Forall header_line sample_x_lines /\
  rebuilt_payload (http_response sample_x_lines "HELLO")
  = http_response sample_x_lines "".
Proof.
  split; [exact sample_header_lines |].
  exact (rebuilt_payload_is_header_block sample_x_lines "HELLO"
           sample_header_lines).
Defined.

Lemma empty_body_test_is_substring_witness :
  Forall header_line sample_x_lines /\
  "X-Content-Length: 0" ∈ sample_x_lines /\
  (contains "Content-Length: 0" "X-Content-Length: 0" = true \/
   contains "content-length: 0" "X-Content-Length: 0" = true) /\
  declares_empty_body (rebuilt_payload (http_response sample_x_lines "HELLO"))
  = true.
Proof.
  assert ("X-Content-Length: 0" ∈ sample_x_lines) as Hin by by_evaluation.
  assert (contains "Content-Length: 0" "X-Content-Length: 0" = true \/
          contains "content-length: 0" "X-Content-Length: 0" = true) as Hl
    by (left; by_evaluation).
  split; [exact sample_header_lines |]. split; [assumption |].
  split; [assumption |].
  exact (empty_body_test_is_substring sample_x_lines "HELLO"
           "X-Content-Length: 0" sample_header_lines Hin Hl).
Defined.

Lemma CheckIP_passes_iff_six_addresses_witness :
  (0 <= 0)%Z /\
  (check_raised (CheckIP_process sample_gethostbyname sample_format_set 0)
   = None
   <-> exists ips,
         Forall2 (fun host ip => sample_gethostbyname host = Some ip)
           checked_hosts ips /\
         NoDup ips) /\
  counter_after (CheckIP_process sample_gethostbyname sample_format_set 0)
  = match check_raised
            (CheckIP_process sample_gethostbyname sample_format_set 0)
    with
    | None => 10%Z
    | Some _ => 0%Z
    end.
Proof.
  assert (0 <= 0)%Z as Hc by lia.
  split; [assumption |].
  exact (CheckIP_passes_iff_six_addresses sample_gethostbyname
           sample_format_set 0 Hc).
Defined.

Lemma CheckIP_checks_one_item_in_eleven_witness :
  (0 <= 0)%Z /\
  check_raised (CheckIP_process sample_gethostbyname sample_format_set 0)
  = None /\
  10 <= 10 /\
  CheckIP_calls sample_gethostbyname sample_format_set 11 0
  = mkChecked (10 - Z.of_nat 10) ["Checking IP address."] None.
Proof.
  assert (0 <= 0)%Z as Hc by lia.
  assert (check_raised
            (CheckIP_process sample_gethostbyname sample_format_set 0)
          = None) as Hpass by by_evaluation.
  assert (10 <= 10) as Hn by lia.
  repeat (split; [assumption |]).
  exact (CheckIP_checks_one_item_in_eleven sample_gethostbyname
           sample_format_set 0 10 Hc Hpass Hn).
Defined.

Lemma realize_fetches_for_images_only_witness :
  sample_item "image:123/456" !! "item_name"
  = Some ("image" +:+ ":" +:+ "123/456") /\
  contains ":" "image" = false /\
  "image" <> "images" /\
  (WgetArgs_realize sample_net (sample_item "image:123/456")).2
  = Raised (if contains "image" "images" then Exception "Unknown item"
            else AssertionError) /\
  n_requests (WgetArgs_realize sample_net (sample_item "image:123/456")).1
  = 0 /\
  item (WgetArgs_realize sample_net (sample_item "image:123/456")).1
  = <["item_value" := "123/456"]>
      (<["item_type" := "image"]> (sample_item "image:123/456")).
Proof.
  assert (sample_item "image:123/456" !! "item_name"
          = Some ("image" +:+ ":" +:+ "123/456")) as Hname by by_evaluation.
  assert (contains ":" "image" = false) as Hty by by_evaluation.
  assert ("image" <> "images") as Hne by by_evaluation.
  repeat (split; [assumption |]).
  exact (realize_fetches_for_images_only sample_net
           (sample_item "image:123/456") "image" "123/456" Hname Hty Hne).
Defined.

Lemma fetch_repeats_on_418_up_to_fifteen_witness :
  2 <= 15 /\
  (forall i, i < 2 ->
     status_code
       (requests_get sample_net
          (n_requests (mkRealizing [] ∅ [] 0 0) + i) (user_page "123"))
     = 418) /\
  (2 < 15 ->
   status_code
     (requests_get sample_net (n_requests (mkRealizing [] ∅ [] 0 0) + 2)
        (user_page "123")) <> 418) /\
  exists s',
    fetch_photo_user sample_net 15 "123" (mkRealizing [] ∅ [] 0 0)
    = (s',
       if decide (2 < 15) then
         let r :=
           requests_get sample_net
             (n_requests (mkRealizing [] ∅ [] 0 0) + 2) (user_page "123") in
         if (bool_decide (String.length (text r) = 0)
             || bool_decide (status_code r <> 200))
            && negb (bool_decide (status_code r = 404))
         then Raised (Exception "Something went wrong... ABORTING")
         else Returned r
       else Raised (Exception "Failed to brew coffee with flickr... :(")) /\
    n_requests s'
    = n_requests (mkRealizing [] ∅ [] 0 0) + 2
      + (if decide (2 < 15) then 1 else 0) /\
    n_randoms s' = n_randoms (mkRealizing [] ∅ [] 0 0) + 2 /\
    wget_args s' = wget_args (mkRealizing [] ∅ [] 0 0) /\
    item s' = item (mkRealizing [] ∅ [] 0 0).
Proof.
  assert (2 <= 15) as Hk by lia.
  assert (forall i, i < 2 ->
            status_code
              (requests_get sample_net
                 (n_requests (mkRealizing [] ∅ [] 0 0) + i)
                 (user_page "123")) = 418) as Hteapots.
  { intros i Hi. destruct i as [|[|i]]; [reflexivity | reflexivity | lia]. }
  assert (2 < 15 ->
          status_code
            (requests_get sample_net
               (n_requests (mkRealizing [] ∅ [] 0 0) + 2) (user_page "123"))
          <> 418) as Hother by (intros _; by_evaluation).
  repeat (split; [assumption |]).
  exact (fetch_repeats_on_418_up_to_fifteen sample_net "123"
           (mkRealizing [] ∅ [] 0 0) 2 Hk Hteapots Hother).
Defined.

Lemma realize_returns_fifteen_arguments_a_photo_witness :
  WgetArgs_realize sample_net (sample_item "images:123/456")
  = (sample_realizing, Returned sample_args) /\
  exists item_value found suffix,
    sample_item "images:123/456" !! "item_name"
    = Some ("images:" +:+ item_value) /\
    found <= length (split "," item_value) /\
    length sample_args
    = 37 + 15 * found
      + match bind_address sample_net with Some _ => 2 | None => 0 end /\
    item sample_realizing !! "item_type" = Some "images" /\
    item sample_realizing !! "item_value" = Some (item_value +:+ suffix) /\
    (forall k, k <> "item_type" -> k <> "item_value" ->
       item sample_realizing !! k = sample_item "images:123/456" !! k).
Proof.
  assert (WgetArgs_realize sample_net (sample_item "images:123/456")
          = (sample_realizing, Returned sample_args)) as Hrun
    by by_evaluation.
  split; [assumption |].
  exact (realize_returns_fifteen_arguments_a_photo sample_net
           (sample_item "images:123/456") sample_realizing sample_args Hrun).
Defined.

Lemma realize_without_pages_gives_no_url_witness :
  sample_item "images:123/456,123/789" !! "item_name"
  = Some ("images:" +:+ "123/456,123/789") /\
  (forall n url, status_code (requests_get sample_net_404 n url) = 404) /\
  (WgetArgs_realize sample_net_404
     (sample_item "images:123/456,123/789")).2
  = realize_args (base_args sample_net_404 ++ [])
      (<["item_value" := "123/456,123/789"]>
         (<["item_type" := "images"]>
            (sample_item "images:123/456,123/789"))) /\
  n_requests
    (WgetArgs_realize sample_net_404
       (sample_item "images:123/456,123/789")).1
  = 2.
Proof.
  assert (sample_item "images:123/456,123/789" !! "item_name"
          = Some ("images:" +:+ "123/456,123/789")) as Hname
    by by_evaluation.
  assert (forall n url,
            status_code (requests_get sample_net_404 n url) = 404)
    as H404 by reflexivity.
  split; [assumption |]. split; [assumption |].
  pose proof (realize_without_pages_gives_no_url sample_net_404
                (sample_item "images:123/456,123/789") "123/456,123/789"
                Hname H404) as (Hres & _ & _ & Hn).
  split; [exact Hres | exact Hn].
Defined.

Lemma realize_after_PrepareDirectories_finds_its_keys_witness :
  PrepareDirectories_process "flickr" sample_sha1 "20170501-000000"
    (fun _ => false) sample_tracker_item
  = (sample_prepared.1, sample_prepared.2, None) /\
  (WgetArgs_realize sample_net sample_prepared.1).2
  <> Raised (Builtin (KeyError "item_dir")).
Proof.
  assert (PrepareDirectories_process "flickr" sample_sha1 "20170501-000000"
            (fun _ => false) sample_tracker_item
          = (sample_prepared.1, sample_prepared.2, None)) as Hprep
    by by_evaluation.
  split; [assumption |].
  exact (realize_after_PrepareDirectories_finds_its_keys "flickr" sample_sha1
           "20170501-000000" (fun _ => false) sample_net sample_tracker_item
           sample_prepared.1 sample_prepared.2 "item_dir" Hprep).
Defined.

